(** * Scan & Go checkout backend: the order lifecycle of [index.js]

    A shallow embedding of the in-memory order server: the catalog, the
    [orders] and [verifications] arrays, and the request handlers
    [POST /api/orders/create], [POST /api/orders/:orderId/claim-payment],
    [POST /api/cashier/verify-order], [POST /api/cashier/scan-exit-qr] and
    [GET /api/analytics/dashboard].

    The gateway handler [POST /api/create-order] of the earlier server file
    only forwards to the payment provider and takes no part in the lifecycle;
    it is not modelled.

    Modelling conventions.
    - JavaScript numbers that hold money and quantities are integers and are
      kept as [Z]; [Math.round] of a product or quotient is taken on the exact
      rational ([Q]), which agrees with the double computation for integers
      of the size of shop amounts (below 2^50).
    - An instant ([Date.now()], [new Date()]) is its epoch value in
      milliseconds; [toISOString] is the rendering of that value, so an ISO
      string field is kept as the instant it renders.
    - A field that may be [undefined] is an [option].
    - The module-level arrays are fields of [World]; an object found with
      [Array.prototype.find] is mutated in place, which is an update of the
      array at the index where it was found. *)

From Stdlib Require Import ZArith QArith Qround String List Lia.
From stdpp Require Import base option list strings pretty.

Local Open Scope Z_scope.
Local Open Scope string_scope.
Local Open Scope list_scope.

(** ** JavaScript primitives used by the handlers *)

Module Js.

(** Truthiness of a value that is a string or [undefined]. *)
Definition truthy (x : option string) : bool :=
  match x with
  | Some s => if decide (s = "") then false else true
  | None => false
  end.

(** [x || d] on a string or [undefined]. *)
Definition or_else (x : option string) (d : string) : string :=
  if truthy x then default d x else d.

(** The calendar day (UTC) of an instant: two instants have the same
    [toISOString().split("T")[0]] exactly when they fall on the same day. *)
Definition utc_day (t : Z) : Z := t / 86400000.

(** [Math.round]: the nearest integer, ties towards plus infinity. *)
Definition Math_round (x : Q) : Z := Qfloor (x + (1 # 2)).

(** [a / b] on numbers: not a finite number when the divisor is zero
    ([NaN] or an infinity), written [None]. *)
Definition div (a b : Z) : option Q :=
  if decide (b = 0) then None else Some (inject_Z a / inject_Z b)%Q.

(** A template-literal rendering of an integer. *)
Definition to_string (n : Z) : string := pretty n.

End Js.

(** ** Data model *)

Module Product.
Record t := mk {
  productId : string;
  barcode : string;
  name : string;
  brand : string;
  category : string;
  price : Z }.
End Product.

Module Store.
Record t := mk {
  storeId : string;
  upiId : string;
  upiQrCode : string }.
End Store.

(** [{ ...product, quantity: item.quantity, itemTotal }] *)
Module OrderItem.
Record t := mk {
  product : Product.t;
  quantity : Z;
  itemTotal : Z }.
Definition price (i : t) : Z := Product.price (product i).
End OrderItem.

Module Order.
Record t := mk {
  orderId : string;
  storeId : string;
  customerPhone : string;
  items : list OrderItem.t;
  subtotal : Z;
  tax : Z;
  total : Z;
  status : string;
  createdAt : Z;
  expiresAt : Z;
  paymentClaimedAt : option Z;
  utrLast4 : option string;
  paidAmount : option Z;
  verifiedAt : option Z;
  verifiedBy : option string;
  verificationNotes : option string;
  rejectedAt : option Z;
  rejectedBy : option string;
  rejectionReason : option string;
  completedAt : option Z }.

(** The four blocks of assignments the handlers perform on a found order. *)

Definition claim (now : Z) (utr : option string) (paid : option Z) (o : t) : t :=
  {| orderId := orderId o; storeId := storeId o;
     customerPhone := customerPhone o; items := items o;
     subtotal := subtotal o; tax := tax o; total := total o;
     status := "payment_claimed";
     createdAt := createdAt o; expiresAt := expiresAt o;
     paymentClaimedAt := Some now; utrLast4 := utr; paidAmount := paid;
     verifiedAt := verifiedAt o; verifiedBy := verifiedBy o;
     verificationNotes := verificationNotes o;
     rejectedAt := rejectedAt o; rejectedBy := rejectedBy o;
     rejectionReason := rejectionReason o;
     completedAt := completedAt o |}.

Definition verify (now : Z) (by_ : string) (notes : option string) (o : t) : t :=
  {| orderId := orderId o; storeId := storeId o;
     customerPhone := customerPhone o; items := items o;
     subtotal := subtotal o; tax := tax o; total := total o;
     status := "verified";
     createdAt := createdAt o; expiresAt := expiresAt o;
     paymentClaimedAt := paymentClaimedAt o; utrLast4 := utrLast4 o;
     paidAmount := paidAmount o;
     verifiedAt := Some now; verifiedBy := Some by_;
     verificationNotes := notes;
     rejectedAt := rejectedAt o; rejectedBy := rejectedBy o;
     rejectionReason := rejectionReason o;
     completedAt := completedAt o |}.

Definition reject (now : Z) (by_ : string) (notes : option string) (o : t) : t :=
  {| orderId := orderId o; storeId := storeId o;
     customerPhone := customerPhone o; items := items o;
     subtotal := subtotal o; tax := tax o; total := total o;
     status := "rejected";
     createdAt := createdAt o; expiresAt := expiresAt o;
     paymentClaimedAt := paymentClaimedAt o; utrLast4 := utrLast4 o;
     paidAmount := paidAmount o;
     verifiedAt := verifiedAt o; verifiedBy := verifiedBy o;
     verificationNotes := verificationNotes o;
     rejectedAt := Some now; rejectedBy := Some by_;
     rejectionReason := notes;
     completedAt := completedAt o |}.

Definition complete (now : Z) (o : t) : t :=
  {| orderId := orderId o; storeId := storeId o;
     customerPhone := customerPhone o; items := items o;
     subtotal := subtotal o; tax := tax o; total := total o;
     status := "completed";
     createdAt := createdAt o; expiresAt := expiresAt o;
     paymentClaimedAt := paymentClaimedAt o; utrLast4 := utrLast4 o;
     paidAmount := paidAmount o;
     verifiedAt := verifiedAt o; verifiedBy := verifiedBy o;
     verificationNotes := verificationNotes o;
     rejectedAt := rejectedAt o; rejectedBy := rejectedBy o;
     rejectionReason := rejectionReason o;
     completedAt := Some now |}.


End Order.

Module VerificationRecord.
Record t := mk {
  verificationId : string;
  orderId : string;
  cashierId : string;
  verified : bool;
  notes : option string;
  timestamp : Z }.
End VerificationRecord.

(** ** The process state

    [stores] and [products] are what [loadData] read from the data files;
    [orders] and [verifications] start empty.  [clock] lists the values the
    system clock returns, one per reading, and [ticks] counts the readings
    made so far; [uuids] and [drawn] do the same for [uuidv4()]. *)

Record World := mkWorld {
  stores : list Store.t;
  products : list Product.t;
  orders : list Order.t;
  verifications : list VerificationRecord.t;
  clock : nat → Z;
  ticks : nat;
  uuids : nat → string;
  drawn : nat }.

Definition set_orders (os : list Order.t) (w : World) : World :=
  {| stores := stores w; products := products w; orders := os;
     verifications := verifications w; clock := clock w; ticks := ticks w;
     uuids := uuids w; drawn := drawn w |}.

Definition set_verifications (vs : list VerificationRecord.t) (w : World) : World :=
  {| stores := stores w; products := products w; orders := orders w;
     verifications := vs; clock := clock w; ticks := ticks w;
     uuids := uuids w; drawn := drawn w |}.

Definition set_ticks (n : nat) (w : World) : World :=
  {| stores := stores w; products := products w; orders := orders w;
     verifications := verifications w; clock := clock w; ticks := n;
     uuids := uuids w; drawn := drawn w |}.

Definition set_drawn (n : nat) (w : World) : World :=
  {| stores := stores w; products := products w; orders := orders w;
     verifications := verifications w; clock := clock w; ticks := ticks w;
     uuids := uuids w; drawn := n |}.

(** ** Handler monad: state over [World], with thrown [Error]s *)

Definition M (A : Type) : Type := World → (string + A) * World.

Global Instance M_ret : MRet M := λ A a w, (inr a, w).

Global Instance M_bind : MBind M := λ A B f m w,
  match m w with
  | (inl e, w') => (inl e, w')
  | (inr a, w') => f a w'
  end.

Definition get : M World := λ w, (inr w, w).

Definition modify (f : World → World) : M unit := λ w, (inr tt, f w).

(** [Date.now()], and the instant of [new Date()]. *)
Definition Date_now : M Z :=
  λ w, (inr (clock w (ticks w)), set_ticks (S (ticks w)) w).

Definition uuidv4 : M string :=
  λ w, (inr (uuids w (drawn w)), set_drawn (S (drawn w)) w).

(** ** Responses: [res.status(http).json({ ... })] *)

Record UpiDetails := mkUpi { upi_upiId : string; upi_upiQrCode : string }.

Record Response := mkResponse {
  http : nat;
  success : bool;
  message : option string;
  allowExit : option bool;
  order : option Order.t;
  upiDetails : option UpiDetails }.

Definition failure (code : nat) (msg : string) : Response :=
  mkResponse code false (Some msg) None None None.

(** [try { body } catch (error) { res.status(500).json(...) }] *)
Definition try_catch (body : M Response) : World → Response * World :=
  λ w, match body w with
       | (inr r, w') => (r, w')
       | (inl msg, w') => (failure 500 msg, w')
       end.

(** [orders.find((o) => o.orderId === orderId)], with the index of the hit. *)
Definition find_order (orderId : string) (os : list Order.t) : option (nat * Order.t) :=
  list_find (λ o, Order.orderId o = orderId) os.

Definition find_product (productId : string) (ps : list Product.t) : option Product.t :=
  snd <$> list_find (λ p, Product.productId p = productId) ps.

Definition find_store (storeId : string) (ss : list Store.t) : option Store.t :=
  snd <$> list_find (λ s, Store.storeId s = storeId) ss.

(** ** Requests *)

(** An element of [req.body.items]. *)
Module Item.
Record t := mk {
  productId : string;
  quantity : Z }.
End Item.

Module CreateOrder.
Record t := mk {
  storeId : option string;
  items : option (list Item.t);
  customerPhone : option string }.
End CreateOrder.

Module VerifyOrder.
Record t := mk {
  orderId : string;
  cashierId : option string;
  verified : bool;
  notes : option string }.
End VerifyOrder.

(** ** POST /api/orders/create *)

(** The callback of [items.map], run over the items from left to right with
    the local accumulator [subtotal]; a missing product throws. *)
Fixpoint map_items (ps : list Product.t) (items : list Item.t) (subtotal : Z)
  : string + (list OrderItem.t * Z) :=
  match items with
  | [] => inr ([], subtotal)
  | item :: rest =>
    match find_product (Item.productId item) ps with
    | None => inl ("Product " +:+ Item.productId item +:+ " not found")
    | Some product =>
      let itemTotal := Product.price product * Item.quantity item in
      match map_items ps rest (subtotal + itemTotal) with
      | inl e => inl e
      | inr (orderItems, subtotal') =>
        inr (OrderItem.mk product (Item.quantity item) itemTotal :: orderItems,
             subtotal')
      end
    end
  end.

(** Running the callbacks inside the handler: a thrown [Error] leaves the
    handler body with its message. *)
Definition lift {A} (r : string + A) : M A := λ w, (r, w).

(** [Math.round(subtotal * 0.05)], 5% GST. *)
Definition gst (subtotal : Z) : Z := Js.Math_round (inject_Z subtotal * 0.05)%Q.

Definition TEN_MINUTES : Z := 10 * 60 * 1000.

Definition createOrder (req : CreateOrder.t) : World → Response * World :=
  try_catch (
    match CreateOrder.items req with
    | Some items =>
      if negb (Js.truthy (CreateOrder.storeId req)) || bool_decide (length items = 0%nat)
      then mret (failure 400 "Store ID and items required")
      else
        let storeId := default "" (CreateOrder.storeId req) in
        w ← get;
        '(orderItems, subtotal) ← lift (map_items (products w) items 0);
        let tax := gst subtotal in
        let total := subtotal + tax in
        t_id ← Date_now;
        t_created ← Date_now;
        t_expiry ← Date_now;
        let order :=
          {| Order.orderId := "ORD" +:+ Js.to_string t_id;
             Order.storeId := storeId;
             Order.customerPhone := Js.or_else (CreateOrder.customerPhone req) "anonymous";
             Order.items := orderItems;
             Order.subtotal := subtotal;
             Order.tax := tax;
             Order.total := total;
             Order.status := "pending_payment";
             Order.createdAt := t_created;
             Order.expiresAt := t_expiry + TEN_MINUTES;
             Order.paymentClaimedAt := None; Order.utrLast4 := None;
             Order.paidAmount := None;
             Order.verifiedAt := None; Order.verifiedBy := None;
             Order.verificationNotes := None;
             Order.rejectedAt := None; Order.rejectedBy := None;
             Order.rejectionReason := None;
             Order.completedAt := None |} in
        modify (λ w, set_orders (orders w ++ [order]) w);;
        w ← get;
        let upi :=
          store ← find_store storeId (stores w);
          Some (mkUpi (Store.upiId store)
                      (Store.upiQrCode store +:+ "&am=" +:+ Js.to_string total
                         +:+ "&tn=" +:+ Order.orderId order)) in
        mret (mkResponse 200 true None None (Some order) upi)
    | None => mret (failure 400 "Store ID and items required")
    end).

(** ** POST /api/orders/:orderId/claim-payment *)

Definition claimPayment (orderId : string) (utrLast4 : option string)
    (paidAmount : option Z) : World → Response * World :=
  try_catch (
    w ← get;
    match find_order orderId (orders w) with
    | None => mret (failure 404 "Order not found")
    | Some (i, o) =>
      if decide (Order.status o ≠ "pending_payment")
      then mret (failure 400 "Order already processed")
      else
        now ← Date_now;
        let o' := Order.claim now utrLast4 paidAmount o in
        modify (λ w, set_orders (<[i := o']> (orders w)) w);;
        mret (mkResponse 200 true (Some "Payment claimed. Awaiting verification.")
                None (Some o') None)
    end).

(** ** POST /api/cashier/verify-order *)

Definition verifyOrder (req : VerifyOrder.t) : World → Response * World :=
  let orderId := VerifyOrder.orderId req in
  let cashierId := VerifyOrder.cashierId req in
  let verified := VerifyOrder.verified req in
  let notes := VerifyOrder.notes req in
  try_catch (
    w ← get;
    match find_order orderId (orders w) with
    | None => mret (failure 404 "Order not found")
    | Some (i, o) =>
      now ← Date_now;
      let o' :=
        if verified
        then Order.verify now (Js.or_else cashierId "cashier") notes o
        else Order.reject now (Js.or_else cashierId "cashier") notes o in
      modify (λ w, set_orders (<[i := o']> (orders w)) w);;
      verificationId ← uuidv4;
      timestamp ← Date_now;
      let record :=
        {| VerificationRecord.verificationId := verificationId;
           VerificationRecord.orderId := orderId;
           VerificationRecord.cashierId := Js.or_else cashierId "cashier";
           VerificationRecord.verified := verified;
           VerificationRecord.notes := notes;
           VerificationRecord.timestamp := timestamp |} in
      modify (λ w, set_verifications (verifications w ++ [record]) w);;
      mret (mkResponse 200 true
              (Some (if verified then "Order verified successfully" else "Order rejected"))
              None (Some o') None)
    end).

(** ** POST /api/cashier/scan-exit-qr *)

Definition scanExit (orderId : string) : World → Response * World :=
  try_catch (
    w ← get;
    match find_order orderId (orders w) with
    | None => mret (failure 404 "Order not found")
    | Some (i, o) =>
      if decide (Order.status o = "verified") then
        now ← Date_now;
        let o' := Order.complete now o in
        modify (λ w, set_orders (<[i := o']> (orders w)) w);;
        mret (mkResponse 200 true (Some "Customer can exit") (Some true) (Some o') None)
      else if decide (Order.status o = "payment_claimed") then
        mret (mkResponse 200 false (Some "Payment not verified yet") (Some false) (Some o) None)
      else if decide (Order.status o = "pending_payment") then
        mret (mkResponse 200 false (Some "Payment not completed") (Some false) (Some o) None)
      else
        mret (mkResponse 200 false (Some "Invalid order status") (Some false) (Some o) None)
    end).

(** ** GET /api/analytics/dashboard *)

Record Analytics := mkAnalytics {
  totalOrders : nat;
  todayOrders : nat;
  completedOrders : nat;
  pendingOrders : nat;
  totalRevenue : Z;
  todayRevenue : Z;
  averageOrderValue : option Z }.

(** [os.reduce((sum, o) => sum + o.total, 0)] *)
Definition revenue (os : list Order.t) : Z :=
  foldl (λ sum o, sum + Order.total o) 0 os.

Definition is_completed (o : Order.t) : Prop := Order.status o = "completed".

Definition is_pending (o : Order.t) : Prop :=
  Order.status o = "pending_payment" ∨ Order.status o = "payment_claimed".

Definition store_orders (storeId : option string) (os : list Order.t) : list Order.t :=
  if Js.truthy storeId
  then filter (λ o, Order.storeId o = default "" storeId) os
  else os.

Definition dashboard (storeId : option string) : World → Analytics * World :=
  λ w,
    let storeOrders := store_orders storeId (orders w) in
    let today := Js.utc_day (clock w (ticks w)) in
    let todayOrders :=
      filter (λ o, Js.utc_day (Order.createdAt o) = today) storeOrders in
    let completedOrders := filter is_completed storeOrders in
    let pendingOrders := filter is_pending storeOrders in
    let totalRevenue := revenue completedOrders in
    let todayRevenue := revenue (filter is_completed todayOrders) in
    ({| totalOrders := length storeOrders;
        todayOrders := length todayOrders;
        completedOrders := length completedOrders;
        pendingOrders := length pendingOrders;
        totalRevenue := totalRevenue;
        todayRevenue := todayRevenue;
        averageOrderValue :=
          if bool_decide (0 < length completedOrders)%nat
          then Js.Math_round <$> Js.div totalRevenue (Z.of_nat (length completedOrders))
          else Some 0 |},
     set_ticks (S (ticks w)) w).

(** ** Sequences of lifecycle operations *)

Inductive Op :=
| ClaimPayment (orderId : string) (utrLast4 : option string) (paidAmount : option Z)
| VerifyOrderOp (req : VerifyOrder.t)
| ScanExit (orderId : string).

Definition step (w : World) (op : Op) : World :=
  match op with
  | ClaimPayment orderId utr paid => snd (claimPayment orderId utr paid w)
  | VerifyOrderOp req => snd (verifyOrder req w)
  | ScanExit orderId => snd (scanExit orderId w)
  end.

Definition run (ops : list Op) (w : World) : World := foldl step w ops.


(** ** Vocabulary of the properties *)

(** The rejection stamps and the verification stamps of an order. *)
Definition rejection_stamps (o : Order.t) : option Z * option string * option string :=
  (Order.rejectedAt o, Order.rejectedBy o, Order.rejectionReason o).

Definition verification_stamps (o : Order.t) : option Z * option string * option string :=
  (Order.verifiedAt o, Order.verifiedBy o, Order.verificationNotes o).

(** The items and the three amounts of an order. *)
Definition totals (o : Order.t) : list OrderItem.t * Z * Z * Z :=
  (Order.items o, Order.subtotal o, Order.tax o, Order.total o).


(** The totals as the specification words them: the sum over the order's
    items of price times quantity. *)
Definition spec_subtotal (ois : list OrderItem.t) : Z :=
  foldr (λ it acc, OrderItem.price it * OrderItem.quantity it + acc) 0 ois.

(** The request item an order item was built from. *)
Definition built_from (ps : list Product.t) (item : Item.t) (oi : OrderItem.t) : Prop :=
  find_product (Item.productId item) ps = Some (OrderItem.product oi) ∧
  OrderItem.quantity oi = Item.quantity item ∧
  OrderItem.itemTotal oi = OrderItem.price oi * OrderItem.quantity oi.

(** The guard at the head of the handler. *)
Definition valid_request (req : CreateOrder.t) (items : list Item.t) : Prop :=
  CreateOrder.items req = Some items ∧
  Js.truthy (CreateOrder.storeId req) = true ∧
  items ≠ [].

(** The order object the handler builds, from the three clock readings. *)
Definition new_order (req : CreateOrder.t) (w : World)
    (orderItems : list OrderItem.t) (subtotal : Z) : Order.t :=
  {| Order.orderId := "ORD" +:+ Js.to_string (clock w (ticks w));
     Order.storeId := default "" (CreateOrder.storeId req);
     Order.customerPhone := Js.or_else (CreateOrder.customerPhone req) "anonymous";
     Order.items := orderItems;
     Order.subtotal := subtotal;
     Order.tax := gst subtotal;
     Order.total := subtotal + gst subtotal;
     Order.status := "pending_payment";
     Order.createdAt := clock w (S (ticks w));
     Order.expiresAt := clock w (S (S (ticks w))) + TEN_MINUTES;
     Order.paymentClaimedAt := None; Order.utrLast4 := None;
     Order.paidAmount := None;
     Order.verifiedAt := None; Order.verifiedBy := None;
     Order.verificationNotes := None;
     Order.rejectedAt := None; Order.rejectedBy := None;
     Order.rejectionReason := None;
     Order.completedAt := None |}.

(** The statement of all-or-nothing creation as the specification words it:
    an unknown product in the item list always yields the product-not-found
    failure. *)
Definition unknown_product_reported : Prop :=
  ∀ (req : CreateOrder.t) (w : World) (items : list Item.t),
    CreateOrder.items req = Some items →
    (∃ item, item ∈ items ∧
       find_product (Item.productId item) (products w) = None) →
    orders (snd (createOrder req w)) = orders w ∧
    ∃ productId : string,
      fst (createOrder req w) =
        failure 500 ("Product " +:+ productId +:+ " not found").

(** ** A sample deployment, used to run the handlers on concrete requests *)

Module Sample.

Definition P1 : Product.t := Product.mk "P1" "8901000000017" "Milk 1L" "Amul" "Dairy" 100.
Definition P2 : Product.t := Product.mk "P2" "8901000000024" "Bread" "Britannia" "Bakery" 45.
Definition S1 : Store.t := Store.mk "STORE001" "store001@upi" "upi://pay?pa=store001@upi".

(** A clock that advances by one millisecond between two readings. *)
Definition ticking (n : nat) : Z := 1700000000000 + Z.of_nat n.

(** A clock that is read several times within one millisecond. *)
Definition frozen (n : nat) : Z := 1700000000000.

(** A source of identifiers that never repeats. *)
Fixpoint tally (n : nat) : string :=
  match n with
  | O => ""
  | S n => "i" +:+ tally n
  end.

Definition ids (n : nat) : string := "uuid-" +:+ tally n.

Definition world (clk : nat → Z) : World :=
  mkWorld [S1] [P1; P2] [] [] clk 0 ids 0.

Definition cart : CreateOrder.t :=
  CreateOrder.mk (Some "STORE001") (Some [Item.mk "P1" 2]) None.

(** The same cart with a product the catalog does not have, and the same
    without a store identifier. *)
Definition bad_cart : CreateOrder.t :=
  CreateOrder.mk (Some "STORE001") (Some [Item.mk "P1" 2; Item.mk "P9" 1]) None.

Definition storeless_bad_cart : CreateOrder.t :=
  CreateOrder.mk None (Some [Item.mk "P9" 1]) None.

(** The identifier of the first order created under the [ticking] clock. *)
Definition orderId : string := "ORD1700000000000".

Definition approve : VerifyOrder.t := VerifyOrder.mk orderId (Some "C7") true None.

Definition refuse : VerifyOrder.t :=
  VerifyOrder.mk orderId None false (Some "UTR mismatch").

(** The states an order goes through. *)
Definition created : World := snd (createOrder cart (world ticking)).

Definition claimed : World :=
  snd (claimPayment orderId (Some "4821") (Some 210) created).

Definition verified : World := snd (verifyOrder approve claimed).

Definition rejected : World := snd (verifyOrder refuse claimed).

Definition completed : World := snd (scanExit orderId verified).

End Sample.

(** ** Unfolding the handler monad *)

Ltac run_handler :=
  unfold try_catch, mbind, M_bind, mret, M_ret, get, modify, Date_now, uuidv4,
    lift; simpl.

(** * The remaining endpoints *)

From Stdlib Require Import Sorted.

(** ** Array and string primitives *)

Module JsArray.

(** [Array.prototype.sort(compareFn)]: the sort is stable, and [a] goes
    before [b] when [compareFn(a, b)] is negative.  Elements are inserted
    from the right, each one in front of the first element it does not have
    to follow. *)
Fixpoint insert_sorted {A} (cmp : A → A → Z) (x : A) (l : list A) : list A :=
  match l with
  | [] => [x]
  | y :: r =>
    if decide (cmp x y ≤ 0)%Z then x :: y :: r else y :: insert_sorted cmp x r
  end.

Definition sort {A} (cmp : A → A → Z) (l : list A) : list A :=
  foldr (insert_sorted cmp) [] l.

(** [s.includes(sub)] *)
Fixpoint includes (s sub : string) : bool :=
  String.prefix sub s ||
  match s with
  | EmptyString => false
  | String _ s' => includes s' sub
  end.

End JsArray.

(** ** Answers of the read-only endpoints *)

Inductive Answer (A : Type) : Type :=
| Ok (body : A)
| Fail (status : nat) (reason : string).

Global Arguments Ok {A} body.
Global Arguments Fail {A} status reason.

(** The 404 of the barcode endpoint echoes the barcode it was asked for. *)
Inductive BarcodeAnswer : Type :=
| BarcodeHit (product : Product.t)
| BarcodeMiss (status : nat) (reason : string) (barcode : string).

(** ** GET /api/stores/:storeId *)

Definition getStore (storeId : string) (w : World) : Answer Store.t :=
  match find_store storeId (stores w) with
  | Some store => Ok store
  | None => Fail 404 "Store not found"
  end.

(** ** GET /api/products: [storeId] is read from the query and not used *)

Definition listProducts (storeId category : option string) (w : World)
  : list Product.t * nat :=
  let filteredProducts :=
    if Js.truthy category
    then filter (λ p, Product.category p = default "" category) (products w)
    else products w in
  (filteredProducts, length filteredProducts).

(** ** GET /api/products/barcode/:barcode *)

Definition getProductByBarcode (barcode : string) (w : World) : BarcodeAnswer :=
  match list_find (λ p, Product.barcode p = barcode) (products w) with
  | Some (_, product) => BarcodeHit product
  | None => BarcodeMiss 404 "Product not found" barcode
  end.

(** ** GET /api/products/search

    [String.prototype.toLowerCase] is the engine's; the endpoint is modelled
    over any such function. *)

Section Search.

Variable toLowerCase : string → string.

Definition matches (q : string) (p : Product.t) : bool :=
  JsArray.includes (toLowerCase (Product.name p)) (toLowerCase q) ||
  JsArray.includes (toLowerCase (Product.brand p)) (toLowerCase q) ||
  JsArray.includes (toLowerCase (Product.category p)) (toLowerCase q).

Definition searchProducts (q : option string) (w : World)
  : Answer (list Product.t * nat) :=
  if Js.truthy q then
    let searchResults :=
      filter (λ p, matches (default "" q) p = true) (products w) in
    Ok (searchResults, length searchResults)
  else Fail 400 "Search query required".

End Search.

(** ** GET /api/orders/:orderId *)

Definition getOrder (orderId : string) (w : World) : Answer Order.t :=
  match find_order orderId (orders w) with
  | Some (_, o) => Ok o
  | None => Fail 404 "Order not found"
  end.

(** ** GET /api/cashier/pending-orders *)

(** [new Date(b.createdAt) - new Date(a.createdAt)] *)
Definition newest_first (a b : Order.t) : Z := Order.createdAt b - Order.createdAt a.

(** The orders the cashier view selects, before they are sorted. *)
Definition pending_of (storeId : option string) (os : list Order.t) : list Order.t :=
  let pendingOrders := filter is_pending os in
  if Js.truthy storeId
  then filter (λ o, Order.storeId o = default "" storeId) pendingOrders
  else pendingOrders.

Definition pendingOrdersView (storeId : option string) (w : World)
  : list Order.t * nat :=
  let pendingOrders := JsArray.sort newest_first (pending_of storeId (orders w)) in
  (pendingOrders, length pendingOrders).

(** ** Whole sessions: every endpoint that writes to the process state *)

Inductive Call : Type :=
| CreateOrderCall (req : CreateOrder.t)
| LifecycleCall (op : Op)
| DashboardCall (storeId : option string).

Definition serve (w : World) (c : Call) : World :=
  match c with
  | CreateOrderCall req => snd (createOrder req w)
  | LifecycleCall op => step w op
  | DashboardCall storeId => snd (dashboard storeId w)
  end.

Definition serve_all (cs : list Call) (w : World) : World := foldl serve w cs.

(** The effect one call can have on the state. *)
Inductive Effect (w : World) : World → Prop :=
| Effect_none : Effect w w
| Effect_clock : Effect w (set_ticks (S (ticks w)) w)
| Effect_create (req : CreateOrder.t) (items : list Item.t)
    (ois : list OrderItem.t) (s : Z) :
    valid_request req items →
    map_items (products w) items 0 = inr (ois, s) →
    Effect w
      (mkWorld (stores w) (products w) (orders w ++ [new_order req w ois s])
         (verifications w) (clock w) (S (S (S (ticks w)))) (uuids w) (drawn w))
| Effect_claim (orderId : string) (utr : option string) (paid : option Z)
    (j : nat) (oj : Order.t) :
    find_order orderId (orders w) = Some (j, oj) →
    Order.status oj = "pending_payment" →
    Effect w
      (mkWorld (stores w) (products w)
         (<[j := Order.claim (clock w (ticks w)) utr paid oj]> (orders w))
         (verifications w) (clock w) (S (ticks w)) (uuids w) (drawn w))
| Effect_verify (req : VerifyOrder.t) (j : nat) (oj : Order.t) :
    find_order (VerifyOrder.orderId req) (orders w) = Some (j, oj) →
    Effect w
      (mkWorld (stores w) (products w)
         (<[j := if VerifyOrder.verified req
                 then Order.verify (clock w (ticks w))
                        (Js.or_else (VerifyOrder.cashierId req) "cashier")
                        (VerifyOrder.notes req) oj
                 else Order.reject (clock w (ticks w))
                        (Js.or_else (VerifyOrder.cashierId req) "cashier")
                        (VerifyOrder.notes req) oj]> (orders w))
         (verifications w ++
            [VerificationRecord.mk (uuids w (drawn w)) (VerifyOrder.orderId req)
               (Js.or_else (VerifyOrder.cashierId req) "cashier")
               (VerifyOrder.verified req) (VerifyOrder.notes req)
               (clock w (S (ticks w)))])
         (clock w) (S (S (ticks w))) (uuids w) (S (drawn w)))
| Effect_complete (orderId : string) (j : nat) (oj : Order.t) :
    find_order orderId (orders w) = Some (j, oj) →
    Order.status oj = "verified" →
    Effect w
      (mkWorld (stores w) (products w)
         (<[j := Order.complete (clock w (ticks w)) oj]> (orders w))
         (verifications w) (clock w) (S (ticks w)) (uuids w) (drawn w)).

(** ** Vocabulary of the session properties *)

(** The fields of an order no handler assigns after creation. *)
Definition birth_fields (o : Order.t)
  : string * string * string * Z * Z * (list OrderItem.t * Z * Z * Z) :=
  (Order.orderId o, Order.storeId o, Order.customerPhone o,
   Order.createdAt o, Order.expiresAt o, totals o).

(** What a call leaves of the repository and of the catalog. *)
Definition preserves_orders (w w' : World) : Prop :=
  stores w' = stores w ∧ products w' = products w ∧
  ∀ (i : nat) (o : Order.t), orders w !! i = Some o →
    ∃ o' : Order.t, orders w' !! i = Some o' ∧ birth_fields o' = birth_fields o.

(** The five statuses the handlers assign. *)
Definition known_status (o : Order.t) : Prop :=
  Order.status o ∈
    ["pending_payment"; "payment_claimed"; "verified"; "rejected"; "completed"].

(** The stamps that go with a status. *)
Definition stamped (o : Order.t) : Prop :=
  (Order.status o = "payment_claimed" → is_Some (Order.paymentClaimedAt o)) ∧
  (Order.status o = "verified" →
     is_Some (Order.verifiedAt o) ∧ is_Some (Order.verifiedBy o)) ∧
  (Order.status o = "rejected" →
     is_Some (Order.rejectedAt o) ∧ is_Some (Order.rejectedBy o)) ∧
  (Order.status o = "completed" →
     is_Some (Order.completedAt o) ∧
     is_Some (Order.verifiedAt o) ∧ is_Some (Order.verifiedBy o)).

(** The order of the cashier view: [a] may stand before [b]. *)
Definition newer_or_same (a b : Order.t) : Prop :=
  (Order.createdAt b ≤ Order.createdAt a)%Z.

(** A clock that never returns the same millisecond twice. *)
Definition strictly_increasing (clk : nat → Z) : Prop :=
  ∀ n m : nat, (n < m)%nat → (clk n < clk m)%Z.

(** Every identifier in the repository was built from an earlier reading of
    the clock, and no two orders share one. *)
Definition ids_from_clock (w : World) : Prop :=
  NoDup (Order.orderId <$> orders w) ∧
  Forall (λ o, ∃ k : nat, (k < ticks w)%nat ∧
                 Order.orderId o = "ORD" +:+ Js.to_string (clock w k))
    (orders w).

(** ** A second deployment, with two stores and orders of several ages *)

Module Floor.

Definition lower_ascii (c : Ascii.ascii) : Ascii.ascii :=
  let n := Ascii.nat_of_ascii c in
  if bool_decide (65 ≤ n ≤ 90)%nat then Ascii.ascii_of_nat (n + 32) else c.

(** [toLowerCase] on strings of the ASCII range. *)
Fixpoint lower (s : string) : string :=
  match s with
  | EmptyString => EmptyString
  | String c s' => String (lower_ascii c) (lower s')
  end.

(** A cart for a store the catalog does not have. *)
Definition unknown_store_cart : CreateOrder.t :=
  CreateOrder.mk (Some "STORE999") (Some [Item.mk "P2" 1]) None.

Definition session : list Call :=
  [CreateOrderCall Sample.cart;
   CreateOrderCall (CreateOrder.mk (Some "STORE002") (Some [Item.mk "P2" 3]) (Some "+919800000001"));
   LifecycleCall (ClaimPayment Sample.orderId (Some "4821") (Some 210));
   DashboardCall None;
   LifecycleCall (VerifyOrderOp Sample.approve);
   CreateOrderCall Sample.cart;
   LifecycleCall (ScanExit Sample.orderId)].

Definition after_session : World := serve_all session (Sample.world Sample.ticking).

End Floor.

(** * Properties *)

(** ** claimPayment *)

Lemma claimPayment_not_pending_conflict_aux
    (orderId : string) (utr : option string) (paid : option Z) (w : World)
    (i : nat) (o : Order.t) :
  find_order orderId (orders w) = Some (i, o) →
  Order.status o ≠ "pending_payment" →
  claimPayment orderId utr paid w = (failure 400 "Order already processed", w).
Proof.
  intros Hfind Hst. unfold claimPayment. run_handler.
  rewrite Hfind. destruct (decide _) as [_|Hn]; [reflexivity|].
  contradiction.
Qed.

(** C6: claimPayment on an existing order whose status is not
    [pending_payment] answers 400 "Order already processed" and leaves the
    whole state as it was: the order is found again, with every field
    unchanged. *)
Theorem claimPayment_not_pending_conflict
    (orderId : string) (utr : option string) (paid : option Z) (w : World)
    (i : nat) (o : Order.t) :
  find_order orderId (orders w) = Some (i, o) →
  Order.status o ≠ "pending_payment" →
  claimPayment orderId utr paid w = (failure 400 "Order already processed", w) ∧
  find_order orderId (orders (snd (claimPayment orderId utr paid w))) = Some (i, o).
Proof.
  intros Hfind Hst.
  rewrite (claimPayment_not_pending_conflict_aux _ _ _ _ _ _ Hfind Hst).
  split; [reflexivity|exact Hfind].
Qed.

(** ** Looking an order up again after it was mutated in place *)

Lemma find_order_lookup (orderId : string) (os : list Order.t) (i : nat) (o : Order.t) :
  find_order orderId os = Some (i, o) →
  os !! i = Some o ∧ Order.orderId o = orderId.
Proof.
  unfold find_order. intros H. apply list_find_Some in H. tauto.
Qed.

Lemma find_order_insert (orderId : string) (os : list Order.t) (i : nat)
    (o o' : Order.t) :
  find_order orderId os = Some (i, o) →
  Order.orderId o' = orderId →
  find_order orderId (<[i := o']> os) = Some (i, o').
Proof.
  unfold find_order. intros H Hid.
  apply list_find_Some in H as (Hi & _ & Hleast).
  apply list_find_Some. split_and!.
  - apply list_lookup_insert_eq. by eapply lookup_lt_Some.
  - done.
  - intros j y Hj Hlt. rewrite list_lookup_insert_ne in Hj by lia. eauto.
Qed.

(** ** verifyOrder *)

(** What the handler does to the state when the order exists. *)
Lemma verifyOrder_found (req : VerifyOrder.t) (w : World) (i : nat) (o : Order.t) :
  find_order (VerifyOrder.orderId req) (orders w) = Some (i, o) →
  let now := clock w (ticks w) in
  let cashier := Js.or_else (VerifyOrder.cashierId req) "cashier" in
  let o' :=
    if VerifyOrder.verified req
    then Order.verify now cashier (VerifyOrder.notes req) o
    else Order.reject now cashier (VerifyOrder.notes req) o in
  let record :=
    VerificationRecord.mk (uuids w (drawn w)) (VerifyOrder.orderId req) cashier
      (VerifyOrder.verified req) (VerifyOrder.notes req) (clock w (S (ticks w))) in
  verifyOrder req w =
    (mkResponse 200 true
       (Some (if VerifyOrder.verified req
              then "Order verified successfully" else "Order rejected"))
       None (Some o') None,
     mkWorld (stores w) (products w) (<[i := o']> (orders w))
       (verifications w ++ [record]) (clock w) (S (S (ticks w)))
       (uuids w) (S (drawn w))).
Proof.
  intros Hfind. unfold verifyOrder. run_handler. rewrite Hfind. reflexivity.
Qed.

(** C5: whatever the status of the order, a verifyOrder call on an existing
    order appends exactly one record to the verification log, and the
    record's [verified] field is the flag of the request. *)
Theorem verifyOrder_appends_one_record
    (req : VerifyOrder.t) (w : World) (i : nat) (o : Order.t) :
  find_order (VerifyOrder.orderId req) (orders w) = Some (i, o) →
  ∃ record : VerificationRecord.t,
    verifications (snd (verifyOrder req w)) = verifications w ++ [record] ∧
    VerificationRecord.verified record = VerifyOrder.verified req ∧
    VerificationRecord.orderId record = VerifyOrder.orderId req.
Proof.
  intros Hfind. rewrite (verifyOrder_found req w i o Hfind). simpl.
  eexists. split; [reflexivity|]. split; reflexivity.
Qed.

Lemma verifyOrder_order_after (req : VerifyOrder.t) (w : World) (i : nat) (o : Order.t) :
  find_order (VerifyOrder.orderId req) (orders w) = Some (i, o) →
  let now := clock w (ticks w) in
  let cashier := Js.or_else (VerifyOrder.cashierId req) "cashier" in
  find_order (VerifyOrder.orderId req) (orders (snd (verifyOrder req w))) =
    Some (i, if VerifyOrder.verified req
             then Order.verify now cashier (VerifyOrder.notes req) o
             else Order.reject now cashier (VerifyOrder.notes req) o).
Proof.
  intros Hfind. rewrite (verifyOrder_found req w i o Hfind). simpl.
  eapply find_order_insert; [exact Hfind|].
  apply find_order_lookup in Hfind as [_ Hid].
  by destruct (VerifyOrder.verified req).
Qed.

(** C10: verifyOrder writes the stamps of the branch it takes and leaves the
    stamps of the other branch as they were; a rejection followed by a
    verification of the same order leaves both sets of stamps on it. *)
Theorem verifyOrder_keeps_opposite_stamps
    (req : VerifyOrder.t) (w : World) (i : nat) (o : Order.t) :
  find_order (VerifyOrder.orderId req) (orders w) = Some (i, o) →
  let now := clock w (ticks w) in
  let cashier := Js.or_else (VerifyOrder.cashierId req) "cashier" in
  let w' := snd (verifyOrder req w) in
  ∃ o' : Order.t,
    find_order (VerifyOrder.orderId req) (orders w') = Some (i, o') ∧
    (VerifyOrder.verified req = true →
       verification_stamps o' = (Some now, Some cashier, VerifyOrder.notes req) ∧
       rejection_stamps o' = rejection_stamps o) ∧
    (VerifyOrder.verified req = false →
       rejection_stamps o' = (Some now, Some cashier, VerifyOrder.notes req) ∧
       verification_stamps o' = verification_stamps o) ∧
    (∀ req2 : VerifyOrder.t,
       VerifyOrder.orderId req2 = VerifyOrder.orderId req →
       VerifyOrder.verified req = false →
       VerifyOrder.verified req2 = true →
       ∃ o'' : Order.t,
         find_order (VerifyOrder.orderId req) (orders (snd (verifyOrder req2 w')))
           = Some (i, o'') ∧
         Order.status o'' = "verified" ∧
         rejection_stamps o'' = (Some now, Some cashier, VerifyOrder.notes req) ∧
         verification_stamps o'' =
           (Some (clock w' (ticks w')),
            Some (Js.or_else (VerifyOrder.cashierId req2) "cashier"),
            VerifyOrder.notes req2)).
Proof.
  intros Hfind now cashier w'.
  pose proof (verifyOrder_order_after req w i o Hfind) as Hafter.
  fold now cashier w' in Hafter.
  eexists. split; [exact Hafter|]. split_and!.
  - intros ->. done.
  - intros ->. done.
  - intros req2 Hid Hrej Hver.
    rewrite <- Hid in Hafter |- *.
    pose proof (verifyOrder_order_after req2 w' i _ Hafter) as Hafter2.
    eexists. split; [exact Hafter2|].
    rewrite Hver, Hrej. done.
Qed.

(** ** scanExit *)

Lemma scanExit_verified (orderId : string) (w : World) (i : nat) (o : Order.t) :
  find_order orderId (orders w) = Some (i, o) →
  Order.status o = "verified" →
  let o' := Order.complete (clock w (ticks w)) o in
  scanExit orderId w =
    (mkResponse 200 true (Some "Customer can exit") (Some true) (Some o') None,
     mkWorld (stores w) (products w) (<[i := o']> (orders w)) (verifications w)
       (clock w) (S (ticks w)) (uuids w) (drawn w)).
Proof.
  intros Hfind Hst. unfold scanExit. run_handler. rewrite Hfind.
  destruct (decide _) as [_|Hn]; [reflexivity|contradiction].
Qed.

Lemma scanExit_not_verified (orderId : string) (w : World) (i : nat) (o : Order.t) :
  find_order orderId (orders w) = Some (i, o) →
  Order.status o ≠ "verified" →
  ∃ msg : string,
    scanExit orderId w = (mkResponse 200 false (Some msg) (Some false) (Some o) None, w).
Proof.
  intros Hfind Hst. unfold scanExit. run_handler. rewrite Hfind.
  destruct (decide _) as [Hv|_]; [contradiction|].
  repeat (destruct (decide _)); eexists; reflexivity.
Qed.

(** C4: on an existing order scanExit answers allowExit=true exactly when the
    status was [verified]; it then sets the status to [completed] and stamps
    [completedAt] with the current instant, and otherwise changes nothing.  A
    second scanExit right after answers allowExit=false and changes nothing. *)
Theorem scanExit_allows_exit_iff_verified
    (orderId : string) (w : World) (i : nat) (o : Order.t) :
  find_order orderId (orders w) = Some (i, o) →
  let r := fst (scanExit orderId w) in
  let w' := snd (scanExit orderId w) in
  (allowExit r = Some true ↔ Order.status o = "verified") ∧
  (Order.status o = "verified" →
     ∃ o' : Order.t,
       find_order orderId (orders w') = Some (i, o') ∧
       o' = Order.complete (clock w (ticks w)) o ∧
       Order.status o' = "completed" ∧
       Order.completedAt o' = Some (clock w (ticks w))) ∧
  (Order.status o ≠ "verified" → allowExit r = Some false ∧ w' = w) ∧
  (∃ r2 : Response,
     scanExit orderId w' = (r2, w') ∧ allowExit r2 = Some false).
Proof.
  intros Hfind r w'. subst r w'.
  destruct (decide (Order.status o = "verified")) as [Hv|Hn].
  - rewrite (scanExit_verified orderId w i o Hfind Hv). simpl.
    assert (Hfind' : find_order orderId
              (<[i := Order.complete (clock w (ticks w)) o]> (orders w))
              = Some (i, Order.complete (clock w (ticks w)) o)).
    { eapply find_order_insert; [exact Hfind|].
      by apply find_order_lookup in Hfind as [_ Hid]. }
    split_and!.
    + tauto.
    + intros _. eexists. split; [exact Hfind'|]. done.
    + intros Hne. contradiction.
    + match goal with |- ∃ r2, scanExit _ ?w1 = _ ∧ _ =>
        destruct (scanExit_not_verified orderId w1 i _ Hfind') as [msg Hmsg];
          [simpl; discriminate|]
      end.
      eexists. split; [exact Hmsg|reflexivity].
  - destruct (scanExit_not_verified orderId w i o Hfind Hn) as [msg Hmsg].
    rewrite Hmsg. simpl. split_and!.
    + split; [discriminate|contradiction].
    + intros Hv. contradiction.
    + done.
    + eexists. split; [exact Hmsg|reflexivity].
Qed.

(** ** The remaining outcomes of claimPayment and scanExit *)

Lemma claimPayment_missing (orderId : string) (utr : option string)
    (paid : option Z) (w : World) :
  find_order orderId (orders w) = None →
  claimPayment orderId utr paid w = (failure 404 "Order not found", w).
Proof.
  intros Hfind. unfold claimPayment. run_handler. by rewrite Hfind.
Qed.

Lemma claimPayment_pending (orderId : string) (utr : option string)
    (paid : option Z) (w : World) (i : nat) (o : Order.t) :
  find_order orderId (orders w) = Some (i, o) →
  Order.status o = "pending_payment" →
  let o' := Order.claim (clock w (ticks w)) utr paid o in
  claimPayment orderId utr paid w =
    (mkResponse 200 true (Some "Payment claimed. Awaiting verification.")
       None (Some o') None,
     mkWorld (stores w) (products w) (<[i := o']> (orders w)) (verifications w)
       (clock w) (S (ticks w)) (uuids w) (drawn w)).
Proof.
  intros Hfind Hst. unfold claimPayment. run_handler. rewrite Hfind.
  destruct (decide _) as [Hn|_]; [contradiction|reflexivity].
Qed.

Lemma scanExit_missing (orderId : string) (w : World) :
  find_order orderId (orders w) = None →
  scanExit orderId w = (failure 404 "Order not found", w).
Proof.
  intros Hfind. unfold scanExit. run_handler. by rewrite Hfind.
Qed.

(** ** Terminal statuses under sequences of operations *)







(** ** createOrder *)

Lemma gst_round (subtotal : Z) : gst subtotal = (subtotal + 10) / 20.
Proof.
  unfold gst, Js.Math_round, Qfloor. simpl.
  change (Z.pos (1 * 100 * 2)) with (20 * 10).
  change (Z.pos (1 * 100)) with 100.
  replace (subtotal * 5 * 2 + 1 * 100) with ((subtotal + 10) * 10) by lia.
  apply Z.div_mul_cancel_r; lia.
Qed.


Lemma map_items_ok (ps : list Product.t) (items : list Item.t) (s0 : Z)
    (ois : list OrderItem.t) (s : Z) :
  map_items ps items s0 = inr (ois, s) →
  s = s0 + spec_subtotal ois ∧ Forall2 (built_from ps) items ois.
Proof.
  revert s0 ois s. induction items as [|item rest IH]; intros s0 ois s; simpl.
  - intros [= <- <-]. simpl. split; [lia|constructor].
  - destruct (find_product _ ps) as [p|] eqn:Hp; [|discriminate].
    destruct (map_items ps rest _) as [e|[ois' s']] eqn:Hrest; [discriminate|].
    intros [= <- <-]. apply IH in Hrest as [-> Hall]. split.
    + simpl. unfold OrderItem.price. simpl. lia.
    + constructor; [|done]. by split_and!.
Qed.

Lemma map_items_all_known (ps : list Product.t) (items : list Item.t) (s0 : Z) :
  Forall (λ item, is_Some (find_product (Item.productId item) ps)) items →
  ∃ ois s, map_items ps items s0 = inr (ois, s).
Proof.
  revert s0. induction items as [|item rest IH]; intros s0 Hall; simpl.
  - eauto.
  - apply Forall_cons in Hall as [[p Hp] Hrest]. rewrite Hp.
    destruct (IH (s0 + Product.price p * Item.quantity item) Hrest)
      as (ois & s & ->).
    eauto.
Qed.

Lemma map_items_unknown (ps : list Product.t) (items : list Item.t) (s0 : Z) :
  (∃ item, item ∈ items ∧ find_product (Item.productId item) ps = None) →
  ∃ item, item ∈ items ∧ find_product (Item.productId item) ps = None ∧
    map_items ps items s0 = inl ("Product " +:+ Item.productId item +:+ " not found").
Proof.
  revert s0. induction items as [|item rest IH]; intros s0 (bad & Hin & Hbad).
  - by apply elem_of_nil in Hin.
  - simpl. destruct (find_product (Item.productId item) ps) as [p|] eqn:Hp.
    + apply elem_of_cons in Hin as [->|Hin]; [congruence|].
      destruct (IH (s0 + Product.price p * Item.quantity item))
        as (item' & Hin' & Hnone & ->); [by eauto|].
      exists item'. split_and!; [by apply elem_of_cons; right|done|done].
    + exists item. split_and!; [by apply elem_of_cons; left|done|done].
Qed.

Lemma createOrder_rejected (req : CreateOrder.t) (w : World) :
  (∀ items, ¬ valid_request req items) →
  createOrder req w = (failure 400 "Store ID and items required", w).
Proof.
  intros Hinv. unfold createOrder. run_handler.
  destruct (CreateOrder.items req) as [items|] eqn:Hitems; [|reflexivity].
  destruct (Js.truthy (CreateOrder.storeId req)) eqn:Hstore; [|reflexivity].
  simpl. case_bool_decide as Hlen; [reflexivity|].
  exfalso. apply (Hinv items). split_and!; [done..|].
  intros ->. by apply Hlen.
Qed.

Lemma createOrder_throws (req : CreateOrder.t) (w : World) (items : list Item.t)
    (e : string) :
  valid_request req items →
  map_items (products w) items 0 = inl e →
  createOrder req w = (failure 500 e, w).
Proof.
  intros (Hitems & Hstore & Hne) Hmap. unfold createOrder. run_handler.
  rewrite Hitems, Hstore. simpl.
  case_bool_decide as Hlen; [by destruct items|].
  by rewrite Hmap.
Qed.

Lemma createOrder_created (req : CreateOrder.t) (w : World) (items : list Item.t)
    (ois : list OrderItem.t) (s : Z) :
  valid_request req items →
  map_items (products w) items 0 = inr (ois, s) →
  ∃ upi : option UpiDetails,
    createOrder req w =
      (mkResponse 200 true None None (Some (new_order req w ois s)) upi,
       mkWorld (stores w) (products w) (orders w ++ [new_order req w ois s])
         (verifications w) (clock w) (S (S (S (ticks w)))) (uuids w) (drawn w)).
Proof.
  intros (Hitems & Hstore & Hne) Hmap. unfold createOrder. run_handler.
  rewrite Hitems, Hstore. simpl.
  case_bool_decide as Hlen; [by destruct items|].
  rewrite Hmap. simpl. eexists. reflexivity.
Qed.

(** Every answer of the handler is one of the three above. *)
Lemma createOrder_cases (req : CreateOrder.t) (w : World) :
  createOrder req w = (failure 400 "Store ID and items required", w) ∨
  (∃ items e, valid_request req items ∧
     map_items (products w) items 0 = inl e ∧
     createOrder req w = (failure 500 e, w)) ∨
  (∃ items ois s upi, valid_request req items ∧
     map_items (products w) items 0 = inr (ois, s) ∧
     createOrder req w =
       (mkResponse 200 true None None (Some (new_order req w ois s)) upi,
        mkWorld (stores w) (products w) (orders w ++ [new_order req w ois s])
          (verifications w) (clock w) (S (S (S (ticks w)))) (uuids w) (drawn w))).
Proof.
  destruct (CreateOrder.items req) as [items|] eqn:Hitems.
  - destruct (Js.truthy (CreateOrder.storeId req)) eqn:Hstore.
    + destruct (decide (items = [])) as [->|Hne].
      * left. apply createOrder_rejected. intros items' (Hi & _ & Hn).
        congruence.
      * assert (Hvalid : valid_request req items) by done.
        destruct (map_items (products w) items 0) as [e|[ois s]] eqn:Hmap.
        -- right; left. exists items, e. eauto using createOrder_throws.
        -- right; right.
           destruct (createOrder_created req w items ois s Hvalid Hmap) as [upi H].
           exists items, ois, s, upi. eauto.
    + left. apply createOrder_rejected. intros items' (_ & Hs & _). congruence.
  - left. apply createOrder_rejected. intros items' (Hi & _). congruence.
Qed.

(** C2, as amended: a request whose item list names an unknown product
    persists nothing; when its store identifier is present the answer is the
    product-not-found failure for an unknown product of the list, and when
    the store identifier is missing the answer is the validation failure. *)
Theorem createOrder_unknown_product_all_or_nothing
    (req : CreateOrder.t) (w : World) (items : list Item.t) :
  CreateOrder.items req = Some items →
  (∃ item, item ∈ items ∧
     find_product (Item.productId item) (products w) = None) →
  snd (createOrder req w) = w ∧
  orders (snd (createOrder req w)) = orders w ∧
  (Js.truthy (CreateOrder.storeId req) = true →
     ∃ item, item ∈ items ∧
       find_product (Item.productId item) (products w) = None ∧
       fst (createOrder req w) =
         failure 500 ("Product " +:+ Item.productId item +:+ " not found")) ∧
  (Js.truthy (CreateOrder.storeId req) = false →
     fst (createOrder req w) = failure 400 "Store ID and items required").
Proof.
  intros Hitems Hbad.
  destruct (Js.truthy (CreateOrder.storeId req)) eqn:Hstore.
  - assert (Hvalid : valid_request req items).
    { split_and!; [done..|]. intros ->. destruct Hbad as (item & Hin & _).
      by apply elem_of_nil in Hin. }
    destruct (map_items_unknown (products w) items 0 Hbad)
      as (item & Hin & Hnone & Hmap).
    rewrite (createOrder_throws req w items _ Hvalid Hmap). simpl.
    split_and!; [done|done| |done]. intros _. by exists item.
  - rewrite (createOrder_rejected req w).
    + simpl. split_and!; done.
    + intros items' (_ & Hs & _). congruence.
Qed.


(** The amounts are never written again: every lifecycle operation leaves
    the items, subtotal, tax and total of every order as they were. *)
Lemma insert_keeps_totals (os : list Order.t) (i j : nat) (o oj o' : Order.t) :
  os !! i = Some o → os !! j = Some oj → totals o' = totals oj →
  ∃ o2 : Order.t, <[j := o']> os !! i = Some o2 ∧ totals o2 = totals o.
Proof.
  intros Hi Hj Htot. destruct (decide (i = j)) as [->|Hne].
  - exists o'. split.
    + apply list_lookup_insert_eq. by eapply lookup_lt_Some.
    + congruence.
  - exists o. by rewrite list_lookup_insert_ne.
Qed.

Lemma verifyOrder_missing (req : VerifyOrder.t) (w : World) :
  find_order (VerifyOrder.orderId req) (orders w) = None →
  verifyOrder req w = (failure 404 "Order not found", w).
Proof.
  intros Hfind. unfold verifyOrder. run_handler. by rewrite Hfind.
Qed.

Lemma step_keeps_totals (op : Op) (w : World) (i : nat) (o : Order.t) :
  orders w !! i = Some o →
  ∃ o' : Order.t, orders (step w op) !! i = Some o' ∧ totals o' = totals o.
Proof.
  intros Hi. destruct op as [orderId utr paid|req|orderId]; simpl.
  - destruct (find_order orderId (orders w)) as [[j oj]|] eqn:Hfind.
    + destruct (decide (Order.status oj = "pending_payment")) as [Hp|Hp].
      * rewrite (claimPayment_pending _ _ _ _ _ _ Hfind Hp). simpl.
        apply find_order_lookup in Hfind as [Hj _].
        by eapply insert_keeps_totals.
      * rewrite (claimPayment_not_pending_conflict_aux _ _ _ _ _ _ Hfind Hp).
        by exists o.
    + rewrite (claimPayment_missing _ _ _ _ Hfind). by exists o.
  - destruct (find_order (VerifyOrder.orderId req) (orders w))
      as [[j oj]|] eqn:Hfind.
    + rewrite (verifyOrder_found _ _ _ _ Hfind). simpl.
      apply find_order_lookup in Hfind as [Hj _].
      eapply insert_keeps_totals; [done..|].
      by destruct (VerifyOrder.verified req).
    + rewrite (verifyOrder_missing _ _ Hfind). by exists o.
  - destruct (find_order orderId (orders w)) as [[j oj]|] eqn:Hfind.
    + destruct (decide (Order.status oj = "verified")) as [Hv|Hv].
      * rewrite (scanExit_verified _ _ _ _ Hfind Hv). simpl.
        apply find_order_lookup in Hfind as [Hj _].
        by eapply insert_keeps_totals.
      * destruct (scanExit_not_verified _ _ _ _ Hfind Hv) as [msg ->].
        by exists o.
    + rewrite (scanExit_missing _ _ Hfind). by exists o.
Qed.

Lemma run_keeps_totals (ops : list Op) (w : World) (i : nat) (o : Order.t) :
  orders w !! i = Some o →
  ∃ o' : Order.t, orders (run ops w) !! i = Some o' ∧ totals o' = totals o.
Proof.
  revert w o. induction ops as [|op ops IH]; intros w o Hi.
  - by exists o.
  - destruct (step_keeps_totals op w i o Hi) as (o1 & Hi1 & Ht1).
    destruct (IH (step w op) o1 Hi1) as (o2 & Hi2 & Ht2).
    exists o2. split; [exact Hi2|congruence].
Qed.

(** A valid request whose products are all in the catalog is served. *)
Lemma createOrder_succeeds (req : CreateOrder.t) (w : World) (items : list Item.t) :
  valid_request req items →
  Forall (λ item, is_Some (find_product (Item.productId item) (products w))) items →
  ∃ o : Order.t,
    order (fst (createOrder req w)) = Some o ∧
    success (fst (createOrder req w)) = true ∧
    orders (snd (createOrder req w)) = orders w ++ [o].
Proof.
  intros Hvalid Hknown.
  destruct (map_items_all_known (products w) items 0 Hknown) as (ois & s & Hmap).
  destruct (createOrder_created req w items ois s Hvalid Hmap) as [upi ->].
  simpl. by eexists.
Qed.

(** What a successful createOrder stamps on the order: the status, and the
    second and third clock readings of the handler. *)
Lemma createOrder_fresh_order (req : CreateOrder.t) (w : World) (o : Order.t) :
  order (fst (createOrder req w)) = Some o →
  Order.status o = "pending_payment" ∧
  Order.orderId o = "ORD" +:+ Js.to_string (clock w (ticks w)) ∧
  Order.createdAt o = clock w (S (ticks w)) ∧
  Order.expiresAt o = clock w (S (S (ticks w))) + TEN_MINUTES.
Proof.
  destruct (createOrder_cases req w)
    as [H|[(items & e & _ & _ & H)|(items & ois & s & upi & Hvalid & Hmap & H)]];
    rewrite H; simpl; try discriminate.
  intros [= <-]. done.
Qed.

(** C7: a createOrder served while the clock advances between the reading
    taken for [createdAt] and the one taken for [expiresAt]: the order is
    [pending_payment], and it expires one millisecond later than ten minutes
    after its creation. *)
Theorem createOrder_expiry_drifts_from_creation :
  ∃ o : Order.t,
    order (fst (createOrder Sample.cart (Sample.world Sample.ticking))) = Some o ∧
    Order.status o = "pending_payment" ∧
    Order.createdAt o = 1700000000001 ∧
    Order.expiresAt o = Order.createdAt o + TEN_MINUTES + 1.
Proof.
  eexists. split; [vm_compute; reflexivity|]. by vm_compute.
Qed.

(** C9: two createOrder calls served within the same millisecond: both
    succeed, two orders are persisted, and they carry the same identifier. *)
Theorem createOrder_same_millisecond_same_orderId :
  ∃ o1 o2 : Order.t,
    orders (snd (createOrder Sample.cart
                   (snd (createOrder Sample.cart (Sample.world Sample.frozen)))))
      = [o1; o2] ∧
    Order.orderId o1 = "ORD1700000000000" ∧
    Order.orderId o2 = "ORD1700000000000".
Proof.
  do 2 eexists. split; [vm_compute; reflexivity|]. by vm_compute.
Qed.

(** Identifiers built from different clock readings differ. *)
Lemma orderId_of_reading_inj (t1 t2 : Z) :
  "ORD" +:+ Js.to_string t1 = "ORD" +:+ Js.to_string t2 → t1 = t2.
Proof.
  intros H. unfold Js.to_string in H.
  apply (inj (String.app "ORD")) in H. by apply (inj pretty) in H.
Qed.

(** ** The dashboard *)

Lemma Math_round_quotient (a b : Z) :
  0 < b →
  Js.Math_round (inject_Z a / inject_Z b)%Q = (2 * a + b) / (2 * b).
Proof.
  intros Hb. destruct b as [|p|p]; try lia.
  unfold Js.Math_round, Qfloor, Qdiv, Qinv, Qmult, Qplus, inject_Z. simpl.
  f_equal; lia.
Qed.

(** C8: the dashboard never divides by zero: [averageOrderValue] is always
    a finite number; it is 0 when no order is completed, and otherwise it is
    [Math.round(totalRevenue / completedOrders)], the nearest integer to the
    quotient. *)
Theorem dashboard_average_never_divides_by_zero
    (storeId : option string) (w : World) :
  let a := fst (dashboard storeId w) in
  let n := Z.of_nat (completedOrders a) in
  is_Some (averageOrderValue a) ∧
  (n = 0 → averageOrderValue a = Some 0) ∧
  (0 < n →
     ∃ q : Q,
       Js.div (totalRevenue a) n = Some q ∧
       averageOrderValue a = Some (Js.Math_round q) ∧
       2 * totalRevenue a - n < 2 * n * Js.Math_round q ≤ 2 * totalRevenue a + n) ∧
  completedOrders a =
    length (filter is_completed (store_orders storeId (orders w))) ∧
  totalRevenue a =
    revenue (filter is_completed (store_orders storeId (orders w))).
Proof.
  intros a n. subst a n. unfold dashboard. simpl.
  set (done_ := filter is_completed (store_orders storeId (orders w))).
  case_bool_decide as Hlen.
  - assert (Hpos : 0 < Z.of_nat (length done_)) by lia.
    unfold Js.div. destruct (decide (Z.of_nat (length done_) = 0)) as [Hz|_]; [lia|].
    simpl. split_and!; [by eexists|lia| |done|done].
    intros _. eexists. split_and!; [reflexivity|reflexivity| |].
    + rewrite Math_round_quotient by done.
      pose proof (Z.div_mod (2 * revenue done_ + Z.of_nat (length done_))
                    (2 * Z.of_nat (length done_)) ltac:(lia)) as Hdm.
      pose proof (Z.mod_pos_bound (2 * revenue done_ + Z.of_nat (length done_))
                    (2 * Z.of_nat (length done_)) ltac:(lia)) as Hb.
      lia.
    + rewrite Math_round_quotient by done.
      pose proof (Z.div_mod (2 * revenue done_ + Z.of_nat (length done_))
                    (2 * Z.of_nat (length done_)) ltac:(lia)) as Hdm.
      pose proof (Z.mod_pos_bound (2 * revenue done_ + Z.of_nat (length done_))
                    (2 * Z.of_nat (length done_)) ltac:(lia)) as Hb.
      lia.
  - split_and!; [by eexists|done|lia|done|done].
Qed.


(** ** Runs on the sample deployment *)

(** The walk through the lifecycle: two units of a product priced 100 give
    subtotal 200, tax 10 and total 210; the order is claimed, verified, let
    out once, and refused at the second scan. *)
Example lifecycle_walkthrough :
  (∃ o, orders Sample.created = [o] ∧
     (Order.subtotal o, Order.tax o, Order.total o) = (200, 10, 210) ∧
     Order.status o = "pending_payment") ∧
  Order.status <$> orders Sample.claimed = ["payment_claimed"] ∧
  Order.status <$> orders Sample.verified = ["verified"] ∧
  length (verifications Sample.verified) = 1%nat ∧
  allowExit (fst (scanExit Sample.orderId Sample.verified)) = Some true ∧
  Order.status <$> orders Sample.completed = ["completed"] ∧
  allowExit (fst (scanExit Sample.orderId Sample.completed)) = Some false ∧
  orders (snd (scanExit Sample.orderId Sample.completed)) = orders Sample.completed.
Proof.
  split_and!; try (vm_compute; reflexivity).
  eexists. split; [vm_compute; reflexivity|]. by vm_compute.
Qed.



(** A request without store identifier and with an unknown product is
    answered by the validation failure. *)
Lemma unknown_product_reported_fails : ¬ unknown_product_reported.
Proof.
  intros H.
  destruct (H Sample.storeless_bad_cart Sample.created [Item.mk "P9" 1] eq_refl)
    as (_ & productId & Hresp).
  - eexists. split; [apply list_elem_of_singleton; reflexivity|].
    vm_compute. reflexivity.
  - apply (f_equal http) in Hresp. vm_compute in Hresp. discriminate.
Qed.

Lemma createOrder_unknown_product_all_or_nothing_witness :
  snd (createOrder Sample.bad_cart Sample.created) = Sample.created ∧
  fst (createOrder Sample.bad_cart Sample.created) =
    failure 500 "Product P9 not found".
Proof.
  edestruct (createOrder_unknown_product_all_or_nothing Sample.bad_cart
               Sample.created) as (Hw & _ & Hr & _).
  - reflexivity.
  - exists (Item.mk "P9" 1). split; [|vm_compute; reflexivity].
    apply list_elem_of_In. simpl. tauto.
  - split; [exact Hw|]. vm_compute. reflexivity.
Defined.


Lemma scanExit_allows_exit_iff_verified_witness :
  allowExit (fst (scanExit Sample.orderId Sample.verified)) = Some true ∧
  ∃ r2 : Response,
    scanExit Sample.orderId Sample.completed = (r2, Sample.completed) ∧
    allowExit r2 = Some false.
Proof.
  edestruct (scanExit_allows_exit_iff_verified Sample.orderId Sample.verified)
    as (Hiff & _ & _ & Hagain).
  - vm_compute. reflexivity.
  - split; [apply Hiff; vm_compute; reflexivity|exact Hagain].
Defined.

Lemma verifyOrder_appends_one_record_witness :
  ∃ record : VerificationRecord.t,
    verifications (snd (verifyOrder Sample.refuse Sample.completed)) =
      verifications Sample.completed ++ [record] ∧
    VerificationRecord.verified record = false.
Proof.
  edestruct (verifyOrder_appends_one_record Sample.refuse Sample.completed)
    as (record & Hlog & Hflag & _).
  - vm_compute. reflexivity.
  - exists record. split; [exact Hlog|exact Hflag].
Defined.

Lemma claimPayment_not_pending_conflict_witness :
  claimPayment Sample.orderId (Some "4821") (Some 210) Sample.claimed =
    (failure 400 "Order already processed", Sample.claimed).
Proof.
  edestruct (claimPayment_not_pending_conflict Sample.orderId (Some "4821")
               (Some 210) Sample.claimed) as (Hresp & _).
  - vm_compute. reflexivity.
  - vm_compute. discriminate.
  - exact Hresp.
Defined.

Lemma verifyOrder_keeps_opposite_stamps_witness :
  ∃ o'' : Order.t,
    find_order Sample.orderId
      (orders (snd (verifyOrder Sample.approve Sample.rejected))) = Some (0%nat, o'') ∧
    Order.status o'' = "verified" ∧
    rejection_stamps o'' = (Some 1700000000004, Some "cashier", Some "UTR mismatch") ∧
    verification_stamps o'' = (Some 1700000000006, Some "C7", None).
Proof.
  edestruct (verifyOrder_keeps_opposite_stamps Sample.refuse Sample.claimed)
    as (o' & _ & _ & _ & Hboth).
  - vm_compute. reflexivity.
  - destruct (Hboth Sample.approve eq_refl eq_refl eq_refl)
      as (o'' & Hfind & Hst & Hrej & Hver).
    exists o''. split; [exact Hfind|]. split; [exact Hst|].
    split; [rewrite Hrej|rewrite Hver]; vm_compute; reflexivity.
Defined.

(** * Properties of whole sessions *)

(** ** One call, one effect *)

Lemma step_effect (w : World) (op : Op) : Effect w (step w op).
Proof.
  destruct op as [orderId utr paid|req|orderId]; simpl.
  - destruct (find_order orderId (orders w)) as [[j oj]|] eqn:Hfind.
    + destruct (decide (Order.status oj = "pending_payment")) as [Hp|Hp].
      * rewrite (claimPayment_pending _ _ _ _ _ _ Hfind Hp). simpl.
        by eapply Effect_claim.
      * rewrite (claimPayment_not_pending_conflict_aux _ _ _ _ _ _ Hfind Hp).
        constructor.
    + rewrite (claimPayment_missing _ _ _ _ Hfind). constructor.
  - destruct (find_order (VerifyOrder.orderId req) (orders w))
      as [[j oj]|] eqn:Hfind.
    + rewrite (verifyOrder_found _ _ _ _ Hfind). simpl.
      by eapply Effect_verify.
    + rewrite (verifyOrder_missing _ _ Hfind). constructor.
  - destruct (find_order orderId (orders w)) as [[j oj]|] eqn:Hfind.
    + destruct (decide (Order.status oj = "verified")) as [Hv|Hv].
      * rewrite (scanExit_verified _ _ _ _ Hfind Hv). simpl.
        by eapply Effect_complete.
      * destruct (scanExit_not_verified _ _ _ _ Hfind Hv) as [msg ->].
        constructor.
    + rewrite (scanExit_missing _ _ Hfind). constructor.
Qed.

Lemma serve_effect (w : World) (c : Call) : Effect w (serve w c).
Proof.
  destruct c as [req|op|storeId]; simpl.
  - destruct (createOrder_cases req w)
      as [H|[(items & e & _ & _ & H)|(items & ois & s & upi & Hvalid & Hmap & H)]];
      rewrite H; simpl; try constructor.
    by eapply Effect_create.
  - apply step_effect.
  - apply Effect_clock.
Qed.

(** A property kept by every effect is kept by every session. *)
Lemma serve_all_invariant (I : World → Prop) :
  (∀ w w', Effect w w' → I w → I w') →
  ∀ (cs : list Call) (w : World), I w → I (serve_all cs w).
Proof.
  intros Hkeep cs. induction cs as [|c cs IH]; intros w Hw; [done|].
  unfold serve_all. simpl. apply IH. eapply Hkeep; [apply serve_effect|done].
Qed.

(** A reflexive and transitive relation that holds across every effect holds
    across every session. *)
Lemma serve_all_related (R : World → World → Prop) :
  (∀ w, R w w) →
  (∀ w1 w2 w3, R w1 w2 → R w2 w3 → R w1 w3) →
  (∀ w w', Effect w w' → R w w') →
  ∀ (cs : list Call) (w : World), R w (serve_all cs w).
Proof.
  intros Hrefl Htrans Hstep cs. induction cs as [|c cs IH]; intros w; [done|].
  unfold serve_all. simpl. eapply Htrans; [|apply IH].
  apply Hstep, serve_effect.
Qed.

(** ** What a session never does to the repository *)

Lemma insert_keeps_birth_fields (os : list Order.t) (i j : nat) (o oj o' : Order.t) :
  os !! i = Some o → os !! j = Some oj → birth_fields o' = birth_fields oj →
  ∃ o2 : Order.t, <[j := o']> os !! i = Some o2 ∧ birth_fields o2 = birth_fields o.
Proof.
  intros Hi Hj Hb. destruct (decide (i = j)) as [->|Hne].
  - exists o'. split.
    + apply list_lookup_insert_eq. by eapply lookup_lt_Some.
    + congruence.
  - exists o. by rewrite list_lookup_insert_ne.
Qed.

Lemma effect_preserves_orders (w w' : World) :
  Effect w w' → preserves_orders w w'.
Proof.
  intros Heff. unfold preserves_orders.
  destruct Heff as [| |req items ois s Hvalid Hmap|orderId utr paid j oj Hfind Hst
                    |req j oj Hfind|orderId j oj Hfind Hst]; simpl;
    (split; [reflexivity|]); (split; [reflexivity|]); intros i o Hi.
  - by exists o.
  - by exists o.
  - exists o. split; [|done]. by apply lookup_app_l_Some.
  - apply find_order_lookup in Hfind as [Hj _].
    by eapply insert_keeps_birth_fields.
  - apply find_order_lookup in Hfind as [Hj _].
    eapply insert_keeps_birth_fields; [done..|].
    by destruct (VerifyOrder.verified req).
  - apply find_order_lookup in Hfind as [Hj _].
    by eapply insert_keeps_birth_fields.
Qed.

(** X1: no session deletes, moves or re-prices an order, or touches the
    catalog: an order keeps its place in the repository, its identifier,
    store, customer, creation and expiry instants, items and amounts, and
    the repository never shrinks. *)
Theorem session_keeps_orders_in_place (cs : list Call) (w : World) :
  stores (serve_all cs w) = stores w ∧
  products (serve_all cs w) = products w ∧
  (length (orders w) ≤ length (orders (serve_all cs w)))%nat ∧
  ∀ (i : nat) (o : Order.t), orders w !! i = Some o →
    ∃ o' : Order.t,
      orders (serve_all cs w) !! i = Some o' ∧ birth_fields o' = birth_fields o.
Proof.
  assert (H : preserves_orders w (serve_all cs w)).
  { apply (serve_all_related preserves_orders).
    - intros w0. split_and!; [done..|]. intros i o Hi. by exists o.
    - intros w1 w2 w3 (Hs1 & Hp1 & H1) (Hs2 & Hp2 & H2).
      split_and!; [congruence..|]. intros i o Hi.
      destruct (H1 i o Hi) as (o1 & Hi1 & Hb1).
      destruct (H2 i o1 Hi1) as (o2 & Hi2 & Hb2).
      exists o2. split; [done|congruence].
    - apply effect_preserves_orders. }
  destruct H as (Hs & Hp & Hkeep). split_and!; [done..| |done].
  destruct (decide (length (orders w) ≤ length (orders (serve_all cs w)))%nat)
    as [|Hlt]; [done|].
  destruct (orders w !! length (orders (serve_all cs w))) as [o|] eqn:Hlast.
  - destruct (Hkeep _ o Hlast) as (o' & Hi' & _).
    apply lookup_lt_Some in Hi'. lia.
  - apply lookup_ge_None in Hlast. lia.
Qed.

(** X2: the verification log is append-only: whatever calls are served, the
    log before is a prefix of the log after. *)
Theorem session_log_append_only (cs : list Call) (w : World) :
  verifications w `prefix_of` verifications (serve_all cs w).
Proof.
  apply (serve_all_related (λ w w', verifications w `prefix_of` verifications w')).
  - done.
  - intros w1 w2 w3 H12 H23. by etrans.
  - intros w0 w' Heff. destruct Heff; simpl; try done.
    by apply prefix_app_r.
Qed.

(** ** Invariants of the orders *)

Lemma effect_keeps_known_status (w w' : World) :
  Effect w w' → Forall known_status (orders w) → Forall known_status (orders w').
Proof.
  intros Heff Hall. unfold known_status in *.
  destruct Heff as [| |req items ois s Hvalid Hmap|orderId utr paid j oj Hfind Hst
                    |req j oj Hfind|orderId j oj Hfind Hst]; simpl; try done.
  - apply Forall_app. split; [done|]. apply Forall_singleton. simpl. (apply list_elem_of_In; simpl; tauto).
  - apply Forall_insert; [done|]. simpl. (apply list_elem_of_In; simpl; tauto).
  - apply Forall_insert; [done|].
    destruct (VerifyOrder.verified req); simpl; (apply list_elem_of_In; simpl; tauto).
  - apply Forall_insert; [done|]. simpl. (apply list_elem_of_In; simpl; tauto).
Qed.

(** X3: the status of an order is always one of the five of the lifecycle:
    a repository whose orders have known statuses keeps that through every
    session; so does one that starts empty. *)
Theorem session_keeps_known_status (cs : list Call) (w : World) :
  Forall known_status (orders w) →
  Forall known_status (orders (serve_all cs w)).
Proof.
  apply (serve_all_invariant (λ w, Forall known_status (orders w))).
  apply effect_keeps_known_status.
Qed.

Lemma effect_keeps_stamped (w w' : World) :
  Effect w w' → Forall stamped (orders w) → Forall stamped (orders w').
Proof.
  intros Heff Hall.
  destruct Heff as [| |req items ois s Hvalid Hmap|orderId utr paid j oj Hfind Hst
                    |req j oj Hfind|orderId j oj Hfind Hst]; simpl; try done.
  - apply Forall_app. split; [done|]. apply Forall_singleton.
    unfold stamped. simpl. split_and!; discriminate.
  - apply Forall_insert; [done|].
    unfold stamped. simpl. split_and!; try discriminate. by eexists.
  - apply Forall_insert; [done|].
    destruct (VerifyOrder.verified req); unfold stamped; simpl;
      split_and!; try discriminate; intros _; split; by eexists.
  - apply Forall_insert; [done|].
    apply find_order_lookup in Hfind as [Hj _].
    pose proof (Forall_lookup_1 _ _ _ _ Hall Hj) as (_ & Hver & _).
    unfold stamped. simpl. split_and!; try discriminate.
    intros _. destruct (Hver Hst) as [Hat Hby]. split_and!; [by eexists|done|done].
Qed.

(** X4: stamps follow statuses: in every state reached from a repository
    where this holds (an empty one, for a start), an order that is
    [payment_claimed] carries its claim instant, a [verified] one its
    verification instant and verifier, a [rejected] one its rejection instant
    and rejector, and a [completed] one its completion instant together with
    the verification instant and verifier: nobody is let out on an order no
    cashier verified. *)
Theorem session_keeps_stamps (cs : list Call) (w : World) :
  Forall stamped (orders w) →
  Forall stamped (orders (serve_all cs w)).
Proof.
  apply (serve_all_invariant (λ w, Forall stamped (orders w))).
  apply effect_keeps_stamped.
Qed.

(** ** Identifiers under a clock that never repeats *)

Lemma fmap_insert_same_id (os : list Order.t) (j : nat) (oj o' : Order.t) :
  os !! j = Some oj → Order.orderId o' = Order.orderId oj →
  Order.orderId <$> <[j := o']> os = Order.orderId <$> os.
Proof.
  intros Hj Hid. rewrite list_fmap_insert, Hid.
  apply list_insert_id. by rewrite list_lookup_fmap, Hj.
Qed.

Lemma ids_bound_weaken (w : World) (t t' : nat) (os : list Order.t) :
  (t ≤ t')%nat →
  Forall (λ o, ∃ k : nat, (k < t)%nat ∧
            Order.orderId o = "ORD" +:+ Js.to_string (clock w k)) os →
  Forall (λ o, ∃ k : nat, (k < t')%nat ∧
            Order.orderId o = "ORD" +:+ Js.to_string (clock w k)) os.
Proof.
  intros Hle Hall. eapply Forall_impl; [exact Hall|].
  intros o (k & Hk & Hid). exists k. split; [lia|done].
Qed.

Lemma ids_insert (w : World) (t t' j : nat) (oj o' : Order.t) :
  (t ≤ t')%nat →
  orders w !! j = Some oj → Order.orderId o' = Order.orderId oj →
  NoDup (Order.orderId <$> orders w) ∧
  Forall (λ o, ∃ k : nat, (k < t)%nat ∧
            Order.orderId o = "ORD" +:+ Js.to_string (clock w k)) (orders w) →
  NoDup (Order.orderId <$> <[j := o']> (orders w)) ∧
  Forall (λ o, ∃ k : nat, (k < t')%nat ∧
            Order.orderId o = "ORD" +:+ Js.to_string (clock w k))
    (<[j := o']> (orders w)).
Proof.
  intros Hle Hj Hid [Hnd Hall]. split.
  - by rewrite (fmap_insert_same_id _ _ oj).
  - apply Forall_insert; [by eapply ids_bound_weaken|].
    destruct (Forall_lookup_1 _ _ _ _ Hall Hj) as (k & Hk & Hoj).
    exists k. split; [lia|congruence].
Qed.

Lemma effect_keeps_ids (w w' : World) :
  Effect w w' →
  strictly_increasing (clock w) ∧ ids_from_clock w →
  strictly_increasing (clock w') ∧ ids_from_clock w'.
Proof.
  intros Heff [Hclk Hids]. unfold ids_from_clock in *.
  destruct Heff as [| |req items ois s Hvalid Hmap|orderId utr paid j oj Hfind Hst
                    |req j oj Hfind|orderId j oj Hfind Hst]; simpl;
    (split; [done|]).
  - done.
  - destruct Hids as [Hnd Hall]. split; [done|].
    eapply ids_bound_weaken; [|done]. lia.
  - destruct Hids as [Hnd Hall]. split.
    + rewrite fmap_app. apply NoDup_app. split_and!; [done| |apply NoDup_singleton].
      intros id Hin Hnew. apply list_elem_of_singleton in Hnew. simpl in Hnew.
      apply list_elem_of_fmap in Hin as (o & -> & Ho).
      apply (proj1 (Forall_forall _ _) Hall) in Ho as (k & Hk & Hid).
      rewrite Hid in Hnew. apply orderId_of_reading_inj in Hnew.
      specialize (Hclk k (ticks w) Hk). lia.
    + apply Forall_app. split.
      * eapply ids_bound_weaken; [|done]. lia.
      * apply Forall_singleton. exists (ticks w). split; [lia|done].
  - apply find_order_lookup in Hfind as [Hj _].
    by apply (ids_insert w (ticks w) _ j oj); [lia|done|done|].
  - apply find_order_lookup in Hfind as [Hj _].
    apply (ids_insert w (ticks w) _ j oj); [lia|done| |done].
    by destruct (VerifyOrder.verified req).
  - apply find_order_lookup in Hfind as [Hj _].
    by apply (ids_insert w (ticks w) _ j oj); [lia|done|done|].
Qed.

Lemma find_order_own_id (os : list Order.t) (i : nat) (o : Order.t) :
  NoDup (Order.orderId <$> os) → os !! i = Some o →
  find_order (Order.orderId o) os = Some (i, o).
Proof.
  intros Hnd Hi. unfold find_order. apply list_find_Some. split_and!; [done..|].
  intros j y Hj Hlt Hid.
  assert (i = j); [|lia].
  eapply (NoDup_lookup _ i j (Order.orderId o) Hnd).
  - by rewrite list_lookup_fmap, Hi.
  - by rewrite list_lookup_fmap, Hj, <- Hid.
Qed.

(** X5: when the clock never returns the same millisecond twice, order
    identifiers are unique: starting from a repository whose identifiers were
    built from earlier readings (an empty one, for a start), every session
    leaves pairwise different identifiers, and every order is the one its own
    identifier finds. *)
Theorem session_ids_unique_under_increasing_clock (cs : list Call) (w : World) :
  strictly_increasing (clock w) →
  ids_from_clock w →
  NoDup (Order.orderId <$> orders (serve_all cs w)) ∧
  ∀ (i : nat) (o : Order.t), orders (serve_all cs w) !! i = Some o →
    find_order (Order.orderId o) (orders (serve_all cs w)) = Some (i, o).
Proof.
  intros Hclk Hids.
  assert (H : strictly_increasing (clock (serve_all cs w)) ∧
              ids_from_clock (serve_all cs w)).
  { apply (serve_all_invariant
             (λ w, strictly_increasing (clock w) ∧ ids_from_clock w));
      [apply effect_keeps_ids|done]. }
  destruct H as [_ [Hnd _]]. split; [done|].
  intros i o Hi. by apply find_order_own_id.
Qed.

(** ** Unknown identifiers *)

(** X6: an identifier that no order carries is answered 404 "Order not
    found" by getOrder, claimPayment, verifyOrder and scanExit, and none of
    them changes the state: no stamp is written and no log record appended. *)
Theorem unknown_order_changes_nothing
    (orderId : string) (utr : option string) (paid : option Z)
    (req : VerifyOrder.t) (w : World) :
  find_order orderId (orders w) = None →
  VerifyOrder.orderId req = orderId →
  getOrder orderId w = Fail 404 "Order not found" ∧
  claimPayment orderId utr paid w = (failure 404 "Order not found", w) ∧
  verifyOrder req w = (failure 404 "Order not found", w) ∧
  scanExit orderId w = (failure 404 "Order not found", w).
Proof.
  intros Hfind Hreq. split_and!.
  - unfold getOrder. by rewrite Hfind.
  - by apply claimPayment_missing.
  - apply verifyOrder_missing. by rewrite Hreq.
  - by apply scanExit_missing.
Qed.

(** ** Claiming a payment *)

Lemma claimPayment_order_after
    (orderId : string) (utr : option string) (paid : option Z) (w : World)
    (i : nat) (o : Order.t) :
  find_order orderId (orders w) = Some (i, o) →
  Order.status o = "pending_payment" →
  find_order orderId (orders (snd (claimPayment orderId utr paid w))) =
    Some (i, Order.claim (clock w (ticks w)) utr paid o).
Proof.
  intros Hfind Hst. rewrite (claimPayment_pending _ _ _ _ _ _ Hfind Hst). simpl.
  eapply find_order_insert; [exact Hfind|].
  by apply find_order_lookup in Hfind as [_ Hid].
Qed.

(** X7: claimPayment on a pending order moves it to [payment_claimed] with
    the claim instant and the reference and amount as supplied, answers with
    the updated order, and touches nothing else: the other orders, the other
    fields of the order and the verification log stay as they were. *)
Theorem claimPayment_pending_claims_only_that_order
    (orderId : string) (utr : option string) (paid : option Z) (w : World)
    (i : nat) (o : Order.t) :
  find_order orderId (orders w) = Some (i, o) →
  Order.status o = "pending_payment" →
  let r := fst (claimPayment orderId utr paid w) in
  let w' := snd (claimPayment orderId utr paid w) in
  ∃ o' : Order.t,
    find_order orderId (orders w') = Some (i, o') ∧
    order r = Some o' ∧ success r = true ∧
    Order.status o' = "payment_claimed" ∧
    (Order.paymentClaimedAt o', Order.utrLast4 o', Order.paidAmount o') =
      (Some (clock w (ticks w)), utr, paid) ∧
    birth_fields o' = birth_fields o ∧
    verification_stamps o' = verification_stamps o ∧
    rejection_stamps o' = rejection_stamps o ∧
    Order.completedAt o' = Order.completedAt o ∧
    (∀ k : nat, k ≠ i → orders w' !! k = orders w !! k) ∧
    length (orders w') = length (orders w) ∧
    verifications w' = verifications w.
Proof.
  intros Hfind Hst r w'. subst r w'.
  rewrite (claimPayment_pending _ _ _ _ _ _ Hfind Hst). simpl.
  eexists. split.
  { eapply find_order_insert; [exact Hfind|].
    by apply find_order_lookup in Hfind as [_ Hid]. }
  split_and!; try done.
  - intros k Hk. by rewrite list_lookup_insert_ne.
  - by rewrite length_insert.
Qed.

(** X8: a payment is claimed once: after a successful claimPayment, a
    second claimPayment on the same order, whatever reference and amount it
    brings, is answered 400 "Order already processed" and the stamps of the
    first claim stay. *)
Theorem claimPayment_twice_keeps_first_claim
    (orderId : string) (utr utr2 : option string) (paid paid2 : option Z)
    (w : World) (i : nat) (o : Order.t) :
  find_order orderId (orders w) = Some (i, o) →
  Order.status o = "pending_payment" →
  let w1 := snd (claimPayment orderId utr paid w) in
  claimPayment orderId utr2 paid2 w1 = (failure 400 "Order already processed", w1) ∧
  ∃ o' : Order.t,
    find_order orderId (orders w1) = Some (i, o') ∧
    (Order.utrLast4 o', Order.paidAmount o') = (utr, paid).
Proof.
  intros Hfind Hst w1.
  pose proof (claimPayment_order_after orderId utr paid w i o Hfind Hst) as Hfind1.
  fold w1 in Hfind1. split.
  - eapply claimPayment_not_pending_conflict_aux; [exact Hfind1|].
    simpl. discriminate.
  - eexists. split; [exact Hfind1|done].
Qed.

(** ** Creating an order *)

(** X9: createOrder answers 400 "Store ID and items required" exactly when
    the store identifier is missing or empty, or the item list is missing or
    empty, and then it leaves the state as it was. *)
Theorem createOrder_validation_failure_iff (req : CreateOrder.t) (w : World) :
  let guard_fails :=
    Js.truthy (CreateOrder.storeId req) = false ∨
    CreateOrder.items req = None ∨ CreateOrder.items req = Some [] in
  (fst (createOrder req w) = failure 400 "Store ID and items required"
     ↔ guard_fails) ∧
  (guard_fails → snd (createOrder req w) = w).
Proof.
  intros guard_fails. subst guard_fails.
  assert (Hinv : (Js.truthy (CreateOrder.storeId req) = false ∨
                  CreateOrder.items req = None ∨ CreateOrder.items req = Some [])
                 → ∀ items, ¬ valid_request req items).
  { intros [H|[H|H]] items (Hi & Hs & Hne); congruence. }
  split.
  - split.
    + intros Hresp.
      destruct (Js.truthy (CreateOrder.storeId req)) eqn:Hstore; [|by left].
      destruct (CreateOrder.items req) as [[|item items]|] eqn:Hitems;
        [by right; right| |by right; left].
      exfalso.
      assert (Hvalid : valid_request req (item :: items)) by done.
      destruct (map_items (products w) (item :: items) 0) as [e|[ois s]] eqn:Hmap.
      * rewrite (createOrder_throws req w _ e Hvalid Hmap) in Hresp.
        simpl in Hresp. apply (f_equal http) in Hresp. discriminate.
      * destruct (createOrder_created req w _ ois s Hvalid Hmap) as [upi H].
        rewrite H in Hresp. simpl in Hresp.
        apply (f_equal http) in Hresp. discriminate.
    + intros Hg. by rewrite (createOrder_rejected req w (Hinv Hg)).
  - intros Hg. by rewrite (createOrder_rejected req w (Hinv Hg)).
Qed.

Lemma createOrder_created_upi (req : CreateOrder.t) (w : World)
    (items : list Item.t) (ois : list OrderItem.t) (s : Z) :
  valid_request req items →
  map_items (products w) items 0 = inr (ois, s) →
  upiDetails (fst (createOrder req w)) =
    match find_store (Order.storeId (new_order req w ois s)) (stores w) with
    | Some store =>
      Some (mkUpi (Store.upiId store)
              (Store.upiQrCode store +:+ "&am=" +:+
               Js.to_string (Order.total (new_order req w ois s)) +:+ "&tn=" +:+
               Order.orderId (new_order req w ois s)))
    | None => None
    end.
Proof.
  intros (Hitems & Hstore & Hne) Hmap. unfold createOrder. run_handler.
  rewrite Hitems, Hstore. simpl.
  case_bool_decide as Hlen; [by destruct items|].
  rewrite Hmap. simpl.
  by destruct (find_store (default "" (CreateOrder.storeId req)) (stores w)).
Qed.

(** X10: the payment details of a created order: when a store carries the
    order's store identifier they are that store's UPI address and its QR
    template followed by [&am=<total>&tn=<orderId>]; when no store does, they
    are null and the order is created and persisted all the same. *)
Theorem createOrder_upi_details (req : CreateOrder.t) (w : World) (o : Order.t) :
  order (fst (createOrder req w)) = Some o →
  orders (snd (createOrder req w)) = orders w ++ [o] ∧
  match find_store (Order.storeId o) (stores w) with
  | Some store =>
    upiDetails (fst (createOrder req w)) =
      Some (mkUpi (Store.upiId store)
              (Store.upiQrCode store +:+ "&am=" +:+ Js.to_string (Order.total o)
                 +:+ "&tn=" +:+ Order.orderId o))
  | None => upiDetails (fst (createOrder req w)) = None
  end.
Proof.
  destruct (createOrder_cases req w)
    as [H|[(items & e & _ & _ & H)|(items & ois & s & upi & Hvalid & Hmap & H)]].
  - rewrite H. simpl. discriminate.
  - rewrite H. simpl. discriminate.
  - pose proof (createOrder_created_upi req w items ois s Hvalid Hmap) as Hupi.
    rewrite H in Hupi |- *. simpl in Hupi |- *. intros [= <-].
    split; [done|]. rewrite Hupi.
    by destruct (find_store _ (stores w)).
Qed.

Lemma createOrder_appends (req : CreateOrder.t) (w : World) (o : Order.t) :
  order (fst (createOrder req w)) = Some o →
  orders (snd (createOrder req w)) = orders w ++ [o] ∧
  verifications (snd (createOrder req w)) = verifications w ∧
  Order.status o = "pending_payment".
Proof.
  destruct (createOrder_cases req w)
    as [H|[(items & e & _ & _ & H)|(items & ois & s & upi & Hvalid & Hmap & H)]];
    rewrite H; simpl; try discriminate.
  by intros [= <-].
Qed.

Lemma find_order_app_fresh (os : list Order.t) (o : Order.t) :
  find_order (Order.orderId o) os = None →
  find_order (Order.orderId o) (os ++ [o]) = Some (length os, o).
Proof.
  unfold find_order. intros Hnone. rewrite list_find_app_r by done. simpl.
  by rewrite decide_True.
Qed.

(** X11: looking up what was just created: getOrder with the identifier of
    the order a createOrder returned answers that order when the identifier
    was not in use before; when an older order already carries the
    identifier, getOrder keeps answering the older one. *)
Theorem createOrder_then_getOrder (req : CreateOrder.t) (w : World) (o : Order.t) :
  order (fst (createOrder req w)) = Some o →
  (find_order (Order.orderId o) (orders w) = None →
     getOrder (Order.orderId o) (snd (createOrder req w)) = Ok o) ∧
  (∀ (i : nat) (old : Order.t),
     find_order (Order.orderId o) (orders w) = Some (i, old) →
     getOrder (Order.orderId o) (snd (createOrder req w)) = Ok old).
Proof.
  intros Hcreated. apply createOrder_appends in Hcreated as (Horders & _ & _).
  unfold getOrder. rewrite Horders. split.
  - intros Hnone. by rewrite find_order_app_fresh.
  - intros i old Hold. unfold find_order in *.
    by rewrite (list_find_app_l _ _ _ _ _ Hold).
Qed.

(** ** The whole lifecycle *)

Lemma verifyOrder_appends_one_record_aux
    (req : VerifyOrder.t) (w : World) (i : nat) (o : Order.t) :
  find_order (VerifyOrder.orderId req) (orders w) = Some (i, o) →
  ∃ record : VerificationRecord.t,
    verifications (snd (verifyOrder req w)) = verifications w ++ [record] ∧
    VerificationRecord.verified record = VerifyOrder.verified req ∧
    VerificationRecord.orderId record = VerifyOrder.orderId req.
Proof.
  intros Hfind. rewrite (verifyOrder_found req w i o Hfind). simpl.
  eexists. split; [reflexivity|]. split; reflexivity.
Qed.

(** X12: the way through the lifecycle: an order created under an
    identifier not in use, then claimed, then verified with [verified = true],
    is let out by scanExit: allowExit is true, the order is [completed], it
    keeps the identifier, items and amounts it was created with, carries the
    claimed reference and amount and the verifier, and the log has grown by
    the one record of the verification. *)
Theorem lifecycle_create_claim_verify_exit
    (req : CreateOrder.t) (w : World) (o : Order.t)
    (utr : option string) (paid : option Z)
    (cashierId notes : option string) :
  order (fst (createOrder req w)) = Some o →
  find_order (Order.orderId o) (orders w) = None →
  let id := Order.orderId o in
  let w1 := snd (createOrder req w) in
  let w2 := snd (claimPayment id utr paid w1) in
  let w3 := snd (verifyOrder (VerifyOrder.mk id cashierId true notes) w2) in
  let r := fst (scanExit id w3) in
  let w4 := snd (scanExit id w3) in
  allowExit r = Some true ∧
  ∃ (o' : Order.t) (record : VerificationRecord.t),
    getOrder id w4 = Ok o' ∧
    order r = Some o' ∧
    Order.status o' = "completed" ∧
    birth_fields o' = birth_fields o ∧
    (Order.utrLast4 o', Order.paidAmount o') = (utr, paid) ∧
    Order.verifiedBy o' = Some (Js.or_else cashierId "cashier") ∧
    verifications w4 = verifications w ++ [record] ∧
    VerificationRecord.verified record = true ∧
    VerificationRecord.orderId record = id.
Proof.
  intros Hcreated Hfresh id w1 w2 w3 r w4.
  apply createOrder_appends in Hcreated as (Horders & Hlog & Hst).
  assert (H1 : find_order id (orders w1) = Some (length (orders w), o)).
  { subst w1. rewrite Horders. by apply find_order_app_fresh. }
  pose proof (claimPayment_order_after id utr paid w1 _ o H1 Hst) as H2.
  fold w2 in H2.
  assert (Hlog2 : verifications w2 = verifications w1).
  { subst w2. by rewrite (claimPayment_pending _ _ _ _ _ _ H1 Hst). }
  set (req3 := VerifyOrder.mk id cashierId true notes) in *.
  pose proof (verifyOrder_order_after req3 w2 _ _ H2) as H3.
  fold w3 in H3. simpl in H3.
  destruct (verifyOrder_appends_one_record_aux req3 w2 _ _ H2)
    as (record & Hlog3 & Hflag & Hrid).
  fold w3 in Hlog3.
  subst r w4.
  rewrite (scanExit_verified id w3 _ _ H3 eq_refl). simpl.
  split; [done|]. do 2 eexists. split_and!.
  - unfold getOrder. simpl.
    erewrite find_order_insert; [reflexivity|exact H3|done].
  - done.
  - done.
  - done.
  - done.
  - done.
  - rewrite Hlog3, Hlog2. subst w1. by rewrite Hlog.
  - exact Hflag.
  - exact Hrid.
Qed.

(** ** Verification and the exit *)

(** X19: a rejected order is not let out: after verifyOrder with
    [verified = false] on an existing order, whatever its status was,
    scanExit answers allowExit=false with "Invalid order status" and changes
    nothing; the order stays [rejected]. *)
Theorem reject_then_scanExit_refuses
    (req : VerifyOrder.t) (w : World) (i : nat) (o : Order.t) :
  find_order (VerifyOrder.orderId req) (orders w) = Some (i, o) →
  VerifyOrder.verified req = false →
  let w1 := snd (verifyOrder req w) in
  ∃ o' : Order.t,
    find_order (VerifyOrder.orderId req) (orders w1) = Some (i, o') ∧
    Order.status o' = "rejected" ∧
    scanExit (VerifyOrder.orderId req) w1 =
      (mkResponse 200 false (Some "Invalid order status") (Some false) (Some o') None,
       w1).
Proof.
  intros Hfind Hflag w1.
  pose proof (verifyOrder_order_after req w i o Hfind) as Hafter.
  fold w1 in Hafter. rewrite Hflag in Hafter.
  eexists. split; [exact Hafter|]. split; [done|].
  unfold scanExit. run_handler. rewrite Hafter. simpl.
  repeat (destruct (decide _) as [Heq|_]; [discriminate Heq|]).
  reflexivity.
Qed.

(** X20: verifyOrder opens the exit for any order: after verifyOrder with
    [verified = true] on an existing order, whatever its status was before
    (never claimed, rejected, or already completed and let out once),
    scanExit answers allowExit=true and completes the order; the claim
    stamps are as they were, so an order nobody claimed a payment for is let
    out as well. *)
Theorem verify_then_scanExit_allows_exit
    (req : VerifyOrder.t) (w : World) (i : nat) (o : Order.t) :
  find_order (VerifyOrder.orderId req) (orders w) = Some (i, o) →
  VerifyOrder.verified req = true →
  let w1 := snd (verifyOrder req w) in
  let r := fst (scanExit (VerifyOrder.orderId req) w1) in
  let w2 := snd (scanExit (VerifyOrder.orderId req) w1) in
  allowExit r = Some true ∧
  ∃ o' : Order.t,
    find_order (VerifyOrder.orderId req) (orders w2) = Some (i, o') ∧
    Order.status o' = "completed" ∧
    (Order.paymentClaimedAt o', Order.utrLast4 o', Order.paidAmount o') =
      (Order.paymentClaimedAt o, Order.utrLast4 o, Order.paidAmount o).
Proof.
  intros Hfind Hflag w1 r w2.
  pose proof (verifyOrder_order_after req w i o Hfind) as Hafter.
  fold w1 in Hafter. rewrite Hflag in Hafter.
  subst r w2. rewrite (scanExit_verified _ w1 _ _ Hafter eq_refl). simpl.
  split; [done|]. eexists. split.
  - eapply find_order_insert; [exact Hafter|].
    by apply find_order_lookup in Hfind as [_ Hid].
  - done.
Qed.

(** ** Amounts of a created order *)

Lemma find_product_elem_of (productId : string) (ps : list Product.t) (p : Product.t) :
  find_product productId ps = Some p → p ∈ ps.
Proof.
  unfold find_product. intros Hfind.
  apply fmap_Some in Hfind as ([i p'] & Hfind & ->).
  apply list_find_Some in Hfind as (Hi & _). simpl.
  by eapply list_elem_of_lookup_2.
Qed.

Lemma spec_subtotal_nonnegative (ps : list Product.t) (items : list Item.t)
    (ois : list OrderItem.t) :
  Forall (λ p, (0 ≤ Product.price p)%Z) ps →
  Forall (λ item, (0 ≤ Item.quantity item)%Z) items →
  Forall2 (built_from ps) items ois →
  (0 ≤ spec_subtotal ois)%Z.
Proof.
  intros Hprices Hqty Hbuilt. revert Hqty.
  induction Hbuilt as [|item oi items ois (Hfind & Hq & _) Hrest IH]; intros Hqty.
  - done.
  - apply Forall_cons in Hqty as [Hitem Hqty]. simpl.
    specialize (IH Hqty).
    apply find_product_elem_of in Hfind.
    apply (proj1 (Forall_forall _ _) Hprices) in Hfind.
    unfold OrderItem.price. rewrite Hq. nia.
Qed.

(** X21: with a catalog without negative prices and a request without
    negative quantities, the amounts of a created order are ordered: the
    subtotal is not negative, the tax lies between 0 and the subtotal, and
    the total is at least the subtotal. *)
Theorem createOrder_amounts_nonnegative
    (req : CreateOrder.t) (w : World) (items : list Item.t) (o : Order.t) :
  order (fst (createOrder req w)) = Some o →
  CreateOrder.items req = Some items →
  Forall (λ p, (0 ≤ Product.price p)%Z) (products w) →
  Forall (λ item, (0 ≤ Item.quantity item)%Z) items →
  (0 ≤ Order.subtotal o)%Z ∧
  (0 ≤ Order.tax o ≤ Order.subtotal o)%Z ∧
  (Order.subtotal o ≤ Order.total o)%Z.
Proof.
  intros Hcreated Hitems Hprices Hqty. revert Hcreated.
  destruct (createOrder_cases req w)
    as [H|[(items' & e & _ & _ & H)|(items' & ois & s & upi & Hvalid & Hmap & H)]];
    rewrite H; simpl; try discriminate.
  intros [= <-]. simpl.
  destruct Hvalid as (Hitems' & _). rewrite Hitems in Hitems'.
  injection Hitems' as <-.
  apply map_items_ok in Hmap as [-> Hbuilt].
  pose proof (spec_subtotal_nonnegative _ _ _ Hprices Hqty Hbuilt) as Hsub.
  rewrite gst_round.
  pose proof (Z.div_mod (0 + spec_subtotal ois + 10) 20 ltac:(lia)) as Hdm.
  pose proof (Z.mod_pos_bound (0 + spec_subtotal ois + 10) 20 ltac:(lia)) as Hb.
  lia.
Qed.

(** ** The cashier view *)

Lemma insert_sorted_Permutation {A} (cmp : A → A → Z) (x : A) (l : list A) :
  JsArray.insert_sorted cmp x l ≡ₚ x :: l.
Proof.
  induction l as [|y r IH]; simpl; [done|].
  destruct (decide _); [done|]. rewrite IH. apply Permutation_swap.
Qed.

Lemma sort_Permutation {A} (cmp : A → A → Z) (l : list A) :
  JsArray.sort cmp l ≡ₚ l.
Proof.
  induction l as [|x l IH]; simpl; [done|].
  unfold JsArray.sort in *. simpl. by rewrite insert_sorted_Permutation, IH.
Qed.

Lemma insert_sorted_newest_first (x : Order.t) (l : list Order.t) :
  StronglySorted newer_or_same l →
  StronglySorted newer_or_same (JsArray.insert_sorted newest_first x l).
Proof.
  induction 1 as [|y r Hr IH Hy]; simpl.
  - repeat constructor.
  - unfold newest_first at 1. destruct (decide _) as [Hle|Hgt].
    + constructor; [by constructor|]. constructor.
      * unfold newer_or_same. lia.
      * eapply Forall_impl; [exact Hy|]. unfold newer_or_same. intros z Hz. lia.
    + constructor; [done|].
      rewrite insert_sorted_Permutation. constructor; [|done].
      unfold newer_or_same. lia.
Qed.

Lemma sort_newest_first_sorted (l : list Order.t) :
  StronglySorted newer_or_same (JsArray.sort newest_first l).
Proof.
  induction l as [|x l IH]; [constructor|].
  unfold JsArray.sort in *. simpl. by apply insert_sorted_newest_first.
Qed.

Lemma insert_sorted_same_instant (t : Z) (x : Order.t) (l : list Order.t) :
  filter (λ o, Order.createdAt o = t) (JsArray.insert_sorted newest_first x l) =
  filter (λ o, Order.createdAt o = t) (x :: l).
Proof.
  induction l as [|y r IH]; simpl; [done|].
  unfold newest_first at 1. destruct (decide _) as [Hle|Hgt]; [done|].
  rewrite !filter_cons in *.
  destruct (decide (Order.createdAt y = t)) as [Hy|Hy];
    destruct (decide (Order.createdAt x = t)) as [Hx|Hx];
    try (rewrite IH; reflexivity); lia.
Qed.

Lemma sort_same_instant (t : Z) (l : list Order.t) :
  filter (λ o, Order.createdAt o = t) (JsArray.sort newest_first l) =
  filter (λ o, Order.createdAt o = t) l.
Proof.
  induction l as [|x l IH]; [done|].
  unfold JsArray.sort in *. simpl. rewrite insert_sorted_same_instant.
  rewrite !filter_cons. by rewrite IH.
Qed.

Lemma elem_of_pending_of (storeId : option string) (os : list Order.t) (o : Order.t) :
  o ∈ pending_of storeId os ↔
  o ∈ os ∧ is_pending o ∧
  (Js.truthy storeId = true → Order.storeId o = default "" storeId).
Proof.
  unfold pending_of. destruct (Js.truthy storeId).
  - rewrite !list_elem_of_filter. tauto.
  - rewrite list_elem_of_filter. split; [|tauto].
    intros [Hp Hin]. split_and!; [done|done|discriminate].
Qed.

(** X13: the cashier view lists exactly the orders that are
    [pending_payment] or [payment_claimed] (of the given store, when one is
    given), each as often as the repository holds it, newest first; orders
    created at the same instant keep the order of the repository; the count
    is the length of the list. *)
Theorem pendingOrdersView_newest_first (storeId : option string) (w : World) :
  let view := fst (pendingOrdersView storeId w) in
  snd (pendingOrdersView storeId w) = length view ∧
  view ≡ₚ pending_of storeId (orders w) ∧
  StronglySorted newer_or_same view ∧
  (∀ o : Order.t,
     o ∈ view ↔
     o ∈ orders w ∧ is_pending o ∧
     (Js.truthy storeId = true → Order.storeId o = default "" storeId)) ∧
  (∀ t : Z,
     filter (λ o, Order.createdAt o = t) view =
     filter (λ o, Order.createdAt o = t) (pending_of storeId (orders w))).
Proof.
  intros view. subst view. unfold pendingOrdersView. simpl.
  split_and!.
  - done.
  - apply sort_Permutation.
  - apply sort_newest_first_sorted.
  - intros o. rewrite sort_Permutation. apply elem_of_pending_of.
  - intros t. apply sort_same_instant.
Qed.

(** ** The dashboard counters *)

Lemma filter_disjoint_length {A} (P Q : A → Prop)
    `{!∀ x, Decision (P x)} `{!∀ x, Decision (Q x)} (l : list A) :
  (∀ x, P x → Q x → False) →
  (length (filter P l) + length (filter Q l) ≤ length l)%nat.
Proof.
  intros Hdisj. induction l as [|x l IH]; [done|].
  rewrite !filter_cons.
  destruct (decide (P x)) as [HP|HP]; destruct (decide (Q x)) as [HQ|HQ];
    simpl; try lia.
  destruct (Hdisj x HP HQ).
Qed.

Lemma store_orders_length (storeId : option string) (os : list Order.t) :
  (length (store_orders storeId os) ≤ length os)%nat.
Proof.
  unfold store_orders. destruct (Js.truthy storeId); [|done].
  apply length_filter.
Qed.

Lemma pending_of_store_orders (storeId : option string) (os : list Order.t) :
  filter is_pending (store_orders storeId os) = pending_of storeId os.
Proof.
  unfold store_orders, pending_of. destruct (Js.truthy storeId); [|done].
  rewrite !list_filter_filter. apply list_filter_iff. tauto.
Qed.

(** X14: the dashboard only reads: it leaves the orders and the log as they
    are; its counters are consistent: completed plus pending orders never
    exceed the total, today's orders never exceed the total, the total is the
    size of the repository when no store is given and at most that size
    otherwise. *)
Theorem dashboard_counters_consistent (storeId : option string) (w : World) :
  let a := fst (dashboard storeId w) in
  orders (snd (dashboard storeId w)) = orders w ∧
  verifications (snd (dashboard storeId w)) = verifications w ∧
  (completedOrders a + pendingOrders a ≤ totalOrders a)%nat ∧
  (todayOrders a ≤ totalOrders a)%nat ∧
  (totalOrders a ≤ length (orders w))%nat ∧
  (Js.truthy storeId = false → totalOrders a = length (orders w)).
Proof.
  intros a. subst a. unfold dashboard. simpl. split_and!; [done|done| | | |].
  - apply filter_disjoint_length. unfold is_completed, is_pending.
    intros o Hc [Hp|Hp]; rewrite Hc in Hp; discriminate.
  - apply length_filter.
  - apply store_orders_length.
  - intros Hs. unfold store_orders. by rewrite Hs.
Qed.

(** X15: the dashboard and the cashier view agree: for the same store
    filter, the dashboard's [pendingOrders] counter is the count of the
    cashier's pending view. *)
Theorem dashboard_pending_matches_cashier_view (storeId : option string) (w : World) :
  pendingOrders (fst (dashboard storeId w)) = snd (pendingOrdersView storeId w).
Proof.
  unfold dashboard, pendingOrdersView. simpl.
  rewrite pending_of_store_orders.
  symmetry. apply Permutation_length, sort_Permutation.
Qed.

Lemma Forall_filter_keep {A} (P Q : A → Prop) `{!∀ x, Decision (P x)} (l : list A) :
  Forall Q l → Forall Q (filter P l).
Proof.
  rewrite !Forall_forall. intros Hall x Hx.
  apply list_elem_of_filter in Hx as [_ Hx]. by apply Hall.
Qed.

Lemma revenue_from (a : Z) (os : list Order.t) :
  foldl (λ sum o, sum + Order.total o) a os = a + revenue os.
Proof.
  unfold revenue. revert a. induction os as [|o os IH]; intros a; simpl; [lia|].
  rewrite (IH (a + Order.total o)), (IH (0 + Order.total o)). lia.
Qed.

Lemma revenue_cons (o : Order.t) (os : list Order.t) :
  revenue (o :: os) = Order.total o + revenue os.
Proof. unfold revenue at 1. simpl. rewrite revenue_from. lia. Qed.

Lemma revenue_filter_bounds (P : Order.t → Prop) `{!∀ o, Decision (P o)}
    (os : list Order.t) :
  Forall (λ o, (0 ≤ Order.total o)%Z) os →
  (0 ≤ revenue (filter P os) ≤ revenue os)%Z.
Proof.
  induction 1 as [|o os Ho Hos IH]; [done|].
  rewrite filter_cons. destruct (decide (P o)); rewrite !revenue_cons; lia.
Qed.

Lemma revenue_filter_twice (P Q : Order.t → Prop)
    `{!∀ o, Decision (P o)} `{!∀ o, Decision (Q o)} (os : list Order.t) :
  Forall (λ o, (0 ≤ Order.total o)%Z) os →
  (revenue (filter P (filter Q os)) ≤ revenue (filter P os))%Z.
Proof.
  induction 1 as [|o os Ho Hos IH]; [done|].
  rewrite !(filter_cons _ o).
  destruct (decide (Q o)); rewrite ?(filter_cons _ o);
    destruct (decide (P o)); rewrite ?revenue_cons; lia.
Qed.

(** X16: when no order has a negative total, the revenues of the dashboard
    are ordered: today's revenue lies between 0 and the total revenue, and
    the total revenue is what the completed orders of the selection add up
    to, at most the sum over all its orders. *)
Theorem dashboard_revenue_bounds (storeId : option string) (w : World) :
  Forall (λ o, (0 ≤ Order.total o)%Z) (orders w) →
  let a := fst (dashboard storeId w) in
  (0 ≤ todayRevenue a ≤ totalRevenue a)%Z ∧
  (totalRevenue a ≤ revenue (store_orders storeId (orders w)))%Z ∧
  (revenue (store_orders storeId (orders w)) ≤ revenue (orders w))%Z.
Proof.
  intros Hpos a. subst a. unfold dashboard. simpl.
  assert (Hstore : Forall (λ o, (0 ≤ Order.total o)%Z) (store_orders storeId (orders w))).
  { unfold store_orders. destruct (Js.truthy storeId); [|done].
    by apply Forall_filter_keep. }
  set (sel := store_orders storeId (orders w)) in *.
  split_and!.
  - apply revenue_filter_bounds. by apply Forall_filter_keep.
  - by apply revenue_filter_twice.
  - by apply revenue_filter_bounds.
  - subst sel. unfold store_orders. destruct (Js.truthy storeId); [|done].
    by apply revenue_filter_bounds.
Qed.

(** ** The catalog *)

Lemma String_prefix_refl (s : string) : String.prefix s s = true.
Proof.
  induction s as [|a s IH]; simpl; [done|].
  by destruct (Ascii.ascii_dec a a).
Qed.

Lemma includes_refl (s : string) : JsArray.includes s s = true.
Proof.
  destruct s as [|a s]; [done|]. cbn [JsArray.includes].
  by rewrite String_prefix_refl.
Qed.

(** X17: searching for a category name finds at least what listing that
    category returns: for a non-empty category [c], every product of
    [GET /api/products?category=c] is among the results of
    [GET /api/products/search?q=c], whatever [toLowerCase] does and whatever
    store the listing was asked for; the search count is the number of
    results. *)
Theorem category_listing_within_search
    (toLowerCase : string → string) (storeId : option string) (c : string)
    (w : World) :
  c ≠ "" →
  ∃ results : list Product.t,
    searchProducts toLowerCase (Some c) w = Ok (results, length results) ∧
    ∀ p : Product.t, p ∈ fst (listProducts storeId (Some c) w) → p ∈ results.
Proof.
  intros Hc. unfold searchProducts, listProducts. simpl.
  destruct (decide (c = "")) as [|_]; [done|]. simpl.
  eexists. split; [reflexivity|].
  intros p Hp. apply list_elem_of_filter in Hp as [Hcat Hin].
  apply list_elem_of_filter. split; [|done].
  unfold matches. simpl. rewrite Hcat, includes_refl.
  by rewrite !orb_true_r.
Qed.

(** X18: the two catalog lookups: a hit is the first store or product of the
    catalog carrying the identifier or barcode asked for; a miss is a 404,
    given exactly when nothing in the catalog carries it, and the barcode
    endpoint echoes the barcode. *)
Theorem catalog_lookup_hit_or_miss (storeId barcode : string) (w : World) :
  match getStore storeId w with
  | Ok store =>
    ∃ i : nat, stores w !! i = Some store ∧ Store.storeId store = storeId ∧
      ∀ (j : nat) (s : Store.t),
        stores w !! j = Some s → (j < i)%nat → Store.storeId s ≠ storeId
  | Fail status reason =>
    status = 404%nat ∧ reason = "Store not found" ∧
    Forall (λ s, Store.storeId s ≠ storeId) (stores w)
  end ∧
  match getProductByBarcode barcode w with
  | BarcodeHit product =>
    ∃ i : nat, products w !! i = Some product ∧ Product.barcode product = barcode ∧
      ∀ (j : nat) (p : Product.t),
        products w !! j = Some p → (j < i)%nat → Product.barcode p ≠ barcode
  | BarcodeMiss status reason echoed =>
    status = 404%nat ∧ reason = "Product not found" ∧ echoed = barcode ∧
    Forall (λ p, Product.barcode p ≠ barcode) (products w)
  end.
Proof.
  split.
  - unfold getStore, find_store.
    destruct (list_find _ (stores w)) as [[i store]|] eqn:Hfind; simpl.
    + apply list_find_Some in Hfind. by exists i.
    + apply list_find_None in Hfind. done.
  - unfold getProductByBarcode.
    destruct (list_find _ (products w)) as [[i product]|] eqn:Hfind.
    + apply list_find_Some in Hfind. by exists i.
    + apply list_find_None in Hfind. done.
Qed.

(** ** Runs of the session properties on the deployments *)

Lemma session_keeps_known_status_witness :
  Forall known_status (orders Floor.after_session).
Proof.
  apply (session_keeps_known_status Floor.session (Sample.world Sample.ticking)).
  simpl. constructor.
Defined.

Lemma session_keeps_stamps_witness :
  Forall stamped (orders Floor.after_session).
Proof.
  apply (session_keeps_stamps Floor.session (Sample.world Sample.ticking)).
  simpl. constructor.
Defined.

Lemma session_ids_unique_under_increasing_clock_witness :
  NoDup (Order.orderId <$> orders Floor.after_session).
Proof.
  apply (session_ids_unique_under_increasing_clock Floor.session
           (Sample.world Sample.ticking)).
  - intros n m Hnm. simpl. unfold Sample.ticking. lia.
  - split; simpl; constructor.
Defined.

Lemma unknown_order_changes_nothing_witness :
  verifyOrder (VerifyOrder.mk "ORD0" None true None) Sample.created =
    (failure 404 "Order not found", Sample.created).
Proof.
  apply (unknown_order_changes_nothing "ORD0" None None
           (VerifyOrder.mk "ORD0" None true None) Sample.created).
  - vm_compute. reflexivity.
  - reflexivity.
Defined.

Lemma claimPayment_pending_claims_only_that_order_witness :
  ∃ o' : Order.t,
    find_order Sample.orderId (orders Sample.claimed) = Some (0%nat, o') ∧
    Order.status o' = "payment_claimed" ∧
    (Order.utrLast4 o', Order.paidAmount o') = (Some "4821", Some 210).
Proof.
  edestruct (claimPayment_pending_claims_only_that_order Sample.orderId
               (Some "4821") (Some 210) Sample.created)
    as (o' & Hfind & _ & _ & Hst & Hstamps & _).
  - vm_compute. reflexivity.
  - vm_compute. reflexivity.
  - exists o'. split; [exact Hfind|]. split; [exact Hst|]. congruence.
Defined.

Lemma claimPayment_twice_keeps_first_claim_witness :
  claimPayment Sample.orderId (Some "0000") (Some 1) Sample.claimed =
    (failure 400 "Order already processed", Sample.claimed).
Proof.
  edestruct (claimPayment_twice_keeps_first_claim Sample.orderId
               (Some "4821") (Some "0000") (Some 210) (Some 1) Sample.created)
    as (Hresp & _).
  - vm_compute. reflexivity.
  - vm_compute. reflexivity.
  - exact Hresp.
Defined.

Lemma createOrder_upi_details_witness :
  ∃ o : Order.t,
    order (fst (createOrder Floor.unknown_store_cart (Sample.world Sample.ticking)))
      = Some o ∧
    upiDetails (fst (createOrder Floor.unknown_store_cart
                       (Sample.world Sample.ticking))) = None ∧
    orders (snd (createOrder Floor.unknown_store_cart
                   (Sample.world Sample.ticking))) = [o].
Proof.
  eexists. split; [vm_compute; reflexivity|].
  edestruct (createOrder_upi_details Floor.unknown_store_cart
               (Sample.world Sample.ticking)) as (Horders & Hupi).
  - vm_compute. reflexivity.
  - split; [exact Hupi|exact Horders].
Defined.

Lemma createOrder_then_getOrder_witness :
  ∃ o : Order.t,
    order (fst (createOrder Sample.cart (Sample.world Sample.ticking))) = Some o ∧
    getOrder Sample.orderId Sample.created = Ok o.
Proof.
  eexists. split; [vm_compute; reflexivity|].
  edestruct (createOrder_then_getOrder Sample.cart (Sample.world Sample.ticking))
    as (Hfresh & _).
  - vm_compute. reflexivity.
  - apply Hfresh. vm_compute. reflexivity.
Defined.

Lemma lifecycle_create_claim_verify_exit_witness :
  allowExit (fst (scanExit Sample.orderId Sample.verified)) = Some true.
Proof.
  pose proof (λ o, lifecycle_create_claim_verify_exit Sample.cart
                     (Sample.world Sample.ticking) o (Some "4821") (Some 210)
                     (Some "C7") None) as Hpath.
  edestruct Hpath as (Hexit & _).
  - vm_compute. reflexivity.
  - vm_compute. reflexivity.
  - exact Hexit.
Defined.

Lemma dashboard_revenue_bounds_witness :
  (0 ≤ todayRevenue (fst (dashboard None Floor.after_session))
     ≤ totalRevenue (fst (dashboard None Floor.after_session)))%Z.
Proof.
  apply (dashboard_revenue_bounds None Floor.after_session).
  vm_compute. repeat (constructor; [discriminate|]). constructor.
Defined.

Lemma category_listing_within_search_witness :
  ∃ results : list Product.t,
    searchProducts Floor.lower (Some "Dairy") (Sample.world Sample.ticking) =
      Ok (results, length results) ∧
    Sample.P1 ∈ results.
Proof.
  destruct (category_listing_within_search Floor.lower None "Dairy"
              (Sample.world Sample.ticking)) as (results & Hres & Hin).
  - discriminate.
  - exists results. split; [exact Hres|]. apply Hin.
    vm_compute. constructor.
Defined.

Lemma reject_then_scanExit_refuses_witness :
  allowExit (fst (scanExit Sample.orderId Sample.rejected)) = Some false.
Proof.
  edestruct (reject_then_scanExit_refuses Sample.refuse Sample.claimed)
    as (o' & _ & _ & Hscan).
  - vm_compute. reflexivity.
  - reflexivity.
  - change (snd (verifyOrder Sample.refuse Sample.claimed)) with Sample.rejected in Hscan.
    change (VerifyOrder.orderId Sample.refuse) with Sample.orderId in Hscan.
    by rewrite Hscan.
Defined.

Lemma verify_then_scanExit_allows_exit_witness :
  allowExit (fst (scanExit Sample.orderId
                    (snd (verifyOrder Sample.approve Sample.completed)))) = Some true.
Proof.
  edestruct (verify_then_scanExit_allows_exit Sample.approve Sample.completed)
    as (Hexit & _).
  - vm_compute. reflexivity.
  - reflexivity.
  - exact Hexit.
Defined.

Lemma createOrder_amounts_nonnegative_witness :
  ∃ o : Order.t,
    order (fst (createOrder Sample.cart (Sample.world Sample.ticking))) = Some o ∧
    (0 ≤ Order.tax o ≤ Order.subtotal o)%Z.
Proof.
  eexists. split; [vm_compute; reflexivity|].
  eapply (createOrder_amounts_nonnegative Sample.cart (Sample.world Sample.ticking)).
  - vm_compute. reflexivity.
  - reflexivity.
  - simpl. repeat (constructor; [simpl; lia|]). constructor.
  - repeat (constructor; [simpl; lia|]). constructor.
Defined.
